(** * nest-feature-guard: the Redis flag store and the feature guard

    A shallow embedding of class [RedisFeatureFlagCache] (the store) and of
    class [FeatureGuard] (the guard), with the properties of the decision
    algorithm that the specification states.

    Conventions.
    - An [async] method is a computation [Async S A] over the mutable state
      [S] it works on: it returns [Ok a] or rejects with [Err e], and hands
      back the state as it is at that point. [await x <- p in k] is the bind:
      a rejection skips the rest of the method, as an exception does.
    - The Redis server is a finite map from keys to typed values (hashes and
      sets); a command on a key holding the other kind fails with
      [WRONGTYPE], as the server does.
    - JavaScript objects used as dictionaries are [gmap string _]. *)

From stdpp Require Import gmap strings list fin_maps.
From Equations Require Import Equations.

Set Default Proof Using "Type".
Open Scope string_scope.

(** ** Rejections and the [await] monad *)

Inductive Error : Type :=
| WRONGTYPE                    (* Redis: the key holds the wrong kind of value *)
| ERR_ARGS                     (* Redis: wrong number of arguments *)
| StoreFailure (msg : string). (* any other rejection (connection, timeout, ...) *)

Inductive Result (A : Type) : Type :=
| Ok (a : A)
| Err (e : Error).
Arguments Ok {A} a.
Arguments Err {A} e.

Definition Async (S A : Type) : Type := S -> Result A * S.

Definition resolve {S A : Type} (a : A) : Async S A :=
  fun s => (Ok a, s).

Definition reject {S A : Type} (e : Error) : Async S A :=
  fun s => (Err e, s).

Definition and_then {S A B : Type} (p : Async S A) (k : A -> Async S B)
  : Async S B :=
  fun s =>
    match p s with
    | (Ok a, s') => k a s'
    | (Err e, s') => (Err e, s')
    end.

Notation "'await' x <- p 'in' k" := (and_then p (fun x => k))
  (at level 10, x name, p at level 100, k at level 200,
   format "'[v' 'await'  x  <-  p  'in' '/' k ']'").

(** ** The Redis backend (the commands of ioredis that the store issues) *)

Module Redis.

Inductive value : Type :=
| Hash (h : gmap string string)
| SetOf (s : gset string).

(** HGETALL: the fields of the hash; the empty object for a missing key. *)
Definition hgetall (key : string)
  : Async (gmap string value) (gmap string string) :=
  fun db =>
    match db !! key with
    | None => (Ok ∅, db)
    | Some (Hash h) => (Ok h, db)
    | Some (SetOf _) => (Err WRONGTYPE, db)
    end.

(** HMSET: writes the given fields and keeps the other fields of the hash. *)
Definition hmset (key : string) (fields : gmap string string)
  : Async (gmap string value) unit :=
  fun db =>
    match db !! key with
    | None => (Ok tt, <[key := Hash fields]> db)
    | Some (Hash h) => (Ok tt, <[key := Hash (fields ∪ h)]> db)
    | Some (SetOf _) => (Err WRONGTYPE, db)
    end.

(** DEL: removes the key, whatever it holds. *)
Definition del (key : string) : Async (gmap string value) unit :=
  fun db => (Ok tt, delete key db).

(** SADD: adds the members to the set, creating it when the key is
    missing; at least one member is required. *)
Definition sadd (key : string) (members : list string)
  : Async (gmap string value) unit :=
  fun db =>
    match members with
    | [] => (Err ERR_ARGS, db)
    | _ :: _ =>
        match db !! key with
        | None => (Ok tt, <[key := SetOf (list_to_set members)]> db)
        | Some (SetOf s) =>
            (Ok tt, <[key := SetOf (s ∪ list_to_set members)]> db)
        | Some (Hash _) => (Err WRONGTYPE, db)
        end
    end.

(** SMEMBERS: the members of the set; the empty array for a missing key. *)
Definition smembers (key : string)
  : Async (gmap string value) (list string) :=
  fun db =>
    match db !! key with
    | None => (Ok [], db)
    | Some (SetOf s) => (Ok (elements s), db)
    | Some (Hash _) => (Err WRONGTYPE, db)
    end.

End Redis.

(** ** The store interface ([src/feature-flag-cache.interface.ts]) *)

Record SetFeatureFlagOptions : Type := {
  flag : string;
  enabled : bool;
  userIds : option (list string)   (* [userIds?: string[]] *)
}.

(** The object returned by [getFeature]:
    [{ enabled: boolean; userIds?: string[] }]. *)
Record Feature : Type := {
  feature_enabled : bool;
  feature_userIds : option (list string)
}.

(** [interface FeatureGuardStore], implemented by a store whose state has
    type [St]. *)
Class FeatureGuardStore (St : Type) : Type := {
  setFeatureFlag : SetFeatureFlagOptions -> Async St unit;
  getFeature : string -> Async St (option Feature);
  hasFeatureFlag : string -> string -> Async St bool
}.

(** [Array.prototype.slice(start, end)] for [start <= end]. *)
Definition slice {A : Type} (start stop : nat) (l : list A) : list A :=
  take (stop - start) (drop start l).

(** [Array.prototype.includes] on an array of strings. *)
Definition includes (l : list string) (x : string) : bool :=
  bool_decide (x ∈ l).

(** ** [RedisFeatureFlagCache] *)

Module RedisFeatureFlagCache.

Definition batchSize : nat := 1000.

Section WithPrefix.

(** [this.featureKeyPrefix]; the constructor's default is
    ["crudmates:feature-guard"]. *)
Variable featureKeyPrefix : string.

Definition featureInfoKey (flag : string) : string :=
  featureKeyPrefix +:+ ":" +:+ flag +:+ ":info".

Definition featureUsersKey (flag : string) : string :=
  featureKeyPrefix +:+ ":" +:+ flag +:+ ":users".

(** The loop
    [for (let i = 0; i < userIds.length; i += batchSize)
       await this.redis.sadd(key, ...userIds.slice(i, i + batchSize))]. *)
Equations? sadd_batches (key : string) (userIds : list string) (i : nat)
    (db : gmap string Redis.value)
  : Result unit * gmap string Redis.value
  by wf (length userIds - i) lt :=
  sadd_batches key userIds i db with decide (i < length userIds) => {
    | right _ := (Ok tt, db);
    | left _ with Redis.sadd key (slice i (i + batchSize) userIds) db => {
        | (Err e, db') := (Err e, db');
        | (Ok _, db') := sadd_batches key userIds (i + batchSize) db' } }.
Proof. unfold batchSize. lia. Qed.

Definition setFeatureFlag (o : SetFeatureFlagOptions)
  : Async (gmap string Redis.value) unit :=
  await _ <- Redis.hmset (featureInfoKey (flag o))
               {[ "enabled" := if enabled o then "true" else "false" ]} in
  match userIds o with
  | Some ((_ :: _) as ids) =>
      (* userIds && userIds.length > 0 *)
      await _ <- Redis.del (featureUsersKey (flag o)) in
      sadd_batches (featureUsersKey (flag o)) ids 0
  | _ =>
      Redis.del (featureUsersKey (flag o))
  end.

Definition getFeature (flag : string)
  : Async (gmap string Redis.value) (option Feature) :=
  await info <- Redis.hgetall (featureInfoKey flag) in
  match info !! "enabled" with
  | None => resolve None                           (* !('enabled' in info) *)
  | Some v =>
      let enabled := bool_decide (v = "true") in   (* info.enabled === 'true' *)
      await userIds <- Redis.smembers (featureUsersKey flag) in
      resolve (Some {| feature_enabled := enabled;
                       feature_userIds :=
                         if bool_decide (0 < length userIds)
                         then Some userIds else None |})
  end.

Definition hasFeatureFlag (flag userId : string)
  : Async (gmap string Redis.value) bool :=
  await info <- Redis.hgetall (featureInfoKey flag) in
  match info !! "enabled" with
  | None => resolve false
  | Some v =>
      let enabled := bool_decide (v = "true") in
      if negb enabled then resolve false
      else
        await userIds <- Redis.smembers (featureUsersKey flag) in
        let hasUsers := bool_decide (0 < length userIds) in
        if negb hasUsers then resolve true
        else
          let isUserInList := includes userIds userId in
          resolve isUserInList
  end.

End WithPrefix.

(** An instance of the class: the Redis connection and the key prefix. *)
Record t : Type := new {
  redis : gmap string Redis.value;
  featureKeyPrefix : string
}.

(** [constructor(redis, featureKeyPrefix = 'crudmates:feature-guard')] *)
Definition constructor (redis : gmap string Redis.value)
    (featureKeyPrefix : option string) : t :=
  new redis (default "crudmates:feature-guard" featureKeyPrefix).

(** Runs a method body on [this.redis]. *)
Definition on_redis {A : Type}
    (m : string -> Async (gmap string Redis.value) A) : Async t A :=
  fun this =>
    let (r, db) := m (featureKeyPrefix this) (redis this) in
    (r, {| redis := db; featureKeyPrefix := featureKeyPrefix this |}).

End RedisFeatureFlagCache.

#[export] Instance RedisFeatureFlagCache_implements_FeatureGuardStore
  : FeatureGuardStore RedisFeatureFlagCache.t := {|
  setFeatureFlag o :=
    RedisFeatureFlagCache.on_redis
      (fun prefix => RedisFeatureFlagCache.setFeatureFlag prefix o);
  getFeature flag :=
    RedisFeatureFlagCache.on_redis
      (fun prefix => RedisFeatureFlagCache.getFeature prefix flag);
  hasFeatureFlag flag userId :=
    RedisFeatureFlagCache.on_redis
      (fun prefix => RedisFeatureFlagCache.hasFeatureFlag prefix flag userId)
|}.

(** ** JavaScript values, as far as the guard inspects them *)

(** Objects and arrays are references into the heap; the guard never reads
    what they hold. *)
Inductive JsValue : Type :=
| JsUndefined
| JsNull
| JsBoolean (b : bool)
| JsNumber (n : Z)
| JsString (s : string)
| JsObject (ref : nat)
| JsArray (ref : nat).

#[export] Instance JsValue_eq_dec : EqDecision JsValue.
Proof. solve_decision. Defined.

(** [v === true] *)
Definition strictly_true (v : JsValue) : bool :=
  match v with
  | JsBoolean true => true
  | _ => false
  end.

(** ** [src/feature-flag.constants.ts] and [src/feature-flag.interfaces.ts] *)

Inductive FeatureFlagScope : Type := CONTROLLER | SERVICE.

#[export] Instance FeatureFlagScope_eq_dec : EqDecision FeatureFlagScope.
Proof. solve_decision. Defined.

Record FeatureFlagOptions : Type := {
  scope : option FeatureFlagScope   (* [scope?: FeatureFlagScope] *)
}.

(** What [reflector.get(FEATURE_FLAG_KEY, handler)] yields. The decorator is
    declared with [flag: string]; the test suites and the README also hand
    the guard an array of names, so both shapes are kept. *)
Inductive FlagMetadata : Type :=
| FlagUndefined
| FlagNull
| FlagName (name : string)
| FlagNames (names : list string).

(** The string a flag value becomes inside a template literal or as a
    computed property key: an array is joined with commas
    ([Array.prototype.toString]). The guard uses the flag as a property key,
    and the store uses it inside the template literals of its Redis keys
    only, so the guard below converts it once and hands the store the
    string. [None] for [undefined] and [null], which the guard rules out
    before any such use. *)
Definition flag_to_string (f : FlagMetadata) : option string :=
  match f with
  | FlagUndefined | FlagNull => None
  | FlagName name => Some name
  | FlagNames names => Some (String.concat "," names)
  end.

(** The metadata the decorator [FeatureFlag(flag, options)] attaches to a
    handler. *)
Record HandlerMetadata : Type := {
  FEATURE_FLAG_KEY : FlagMetadata;
  FEATURE_FLAG_OPTIONS_KEY : option FeatureFlagOptions
}.

(** [interface FeatureGuardRequest]. [__user_id?: string] is [None] when
    undefined. [__is_admin] is declared boolean, but the guard compares it
    with [===], so any value may sit there. [__feature_flags] is [None] when
    undefined. *)
Record FeatureGuardRequest : Type := {
  __user_id : option string;
  __is_admin : JsValue;
  __feature_flags : option (gmap string bool)
}.

(** ** [FeatureGuard] *)

Module FeatureGuard.

(** A call of a store method, recorded in the order it is made. This log
    is ghost state: it lets a statement say which calls a run made. *)
Inductive StoreCall : Type :=
| Called_getFeature (flag : string)
| Called_hasFeatureFlag (flag userId : string).

(** What a run of the guard works on: the request object, [this.store] and
    the log of store calls. *)
Record World (St : Type) : Type := {
  request : FeatureGuardRequest;
  store : St;
  calls : list StoreCall
}.
Arguments request {St} _.
Arguments store {St} _.
Arguments calls {St} _.

Section WithStore.
Context {St : Type} `{FeatureGuardStore St}.

(** [this.store.getFeature(flag)] *)
Definition store_getFeature (flag : string)
  : Async (World St) (option Feature) :=
  fun w =>
    let (r, st) := getFeature flag (store w) in
    (r, {| request := request w; store := st;
           calls := calls w ++ [Called_getFeature flag] |}).

(** [this.store.hasFeatureFlag(flag, userId)] *)
Definition store_hasFeatureFlag (flag userId : string)
  : Async (World St) bool :=
  fun w =>
    let (r, st) := hasFeatureFlag flag userId (store w) in
    (r, {| request := request w; store := st;
           calls := calls w ++ [Called_hasFeatureFlag flag userId] |}).

(** [context.switchToHttp().getRequest()] *)
Definition getRequest : Async (World St) FeatureGuardRequest :=
  fun w => (Ok (request w), w).

(** [request.__feature_flags = { ...request.__feature_flags, [key]: value }] *)
Definition assign_feature_flag (key : string) (value : bool)
  : Async (World St) unit :=
  fun w =>
    let r := request w in
    (Ok tt,
     {| request :=
          {| __user_id := __user_id r;
             __is_admin := __is_admin r;
             __feature_flags :=
               Some (<[key := value]> (default ∅ (__feature_flags r))) |};
        store := store w;
        calls := calls w |}).

(** [feature?.enabled === true]: [undefined] for [null], else the boolean. *)
Definition enabled_is_true (feature : option Feature) : bool :=
  match feature with
  | Some f => bool_decide (feature_enabled f = true)
  | None => false
  end.

(** The truthiness of [feature?.enabled], as [!feature?.enabled] tests it. *)
Definition enabled_truthy (feature : option Feature) : bool :=
  match feature with
  | Some f => feature_enabled f
  | None => false
  end.

(** [options?.scope !== FeatureFlagScope.SERVICE] *)
Definition scope_is_not_SERVICE (options : option FeatureFlagOptions)
  : bool :=
  match options with
  | Some o => negb (bool_decide (scope o = Some SERVICE))
  | None => true
  end.

Definition canActivate (handler : HandlerMetadata)
  : Async (World St) bool :=
  await request <- getRequest in
  let userId := __user_id request in
  let isAdmin := __is_admin request in
  (* Deny access if no user identification is provided *)
  if bool_decide (userId = None) && negb (strictly_true isAdmin)
  then resolve false
  (* Grant full access to admin users *)
  else if strictly_true isAdmin then resolve true
  else
    let flag := FEATURE_FLAG_KEY handler in
    let options := FEATURE_FLAG_OPTIONS_KEY handler in
    match flag_to_string flag with
    | None => resolve false      (* flag === undefined || flag === null *)
    | Some key =>
        await feature <- store_getFeature key in
        await hasFlag <-
          match userId with
          | Some u => store_hasFeatureFlag key u
          | None => resolve false
          end in
        await _ <- assign_feature_flag key
                     (enabled_is_true feature && hasFlag) in
        if scope_is_not_SERVICE options
        then
          if negb (enabled_truthy feature) || negb hasFlag
          then resolve false
          else resolve true
        else resolve true
    end.

(** [static isFeatureEnabled(request, flag)] *)
Definition isFeatureEnabled (request : FeatureGuardRequest)
    (flag : string) : bool :=
  match __feature_flags request with
  | Some flags => bool_decide (flags !! flag = Some true)
  | None => false
  end.

End WithStore.

End FeatureGuard.

(** ** The decorator [FeatureFlag]

    [SetMetadata], [UseGuards] and [applyDecorators] are those of
    [@nestjs/common]: [SetMetadata(key, value)] defines the metadata [key] of
    the handler, replacing what was there; [UseGuards(g)] appends [g] to the
    guards of the handler; [applyDecorators(d1, ..., dn)] applies [d1] to
    [dn] in this order. *)

Module Decorator.

Inductive Guard : Type :=
| FeatureGuard_class
| OtherGuard (name : string).

(** A route handler: the metadata the guard will read through the
    reflector, and the guards that run before it. *)
Record Handler : Type := {
  metadata : HandlerMetadata;
  guards : list Guard
}.

(** A metadata key of this library, with the value to define for it. *)
Inductive MetadataEntry : Type :=
| feature_flag (flag : FlagMetadata)
| feature_flag_options (options : option FeatureFlagOptions).

Definition SetMetadata (entry : MetadataEntry) (h : Handler) : Handler :=
  match entry with
  | feature_flag flag =>
      {| metadata :=
           {| FEATURE_FLAG_KEY := flag;
              FEATURE_FLAG_OPTIONS_KEY :=
                FEATURE_FLAG_OPTIONS_KEY (metadata h) |};
         guards := guards h |}
  | feature_flag_options options =>
      {| metadata :=
           {| FEATURE_FLAG_KEY := FEATURE_FLAG_KEY (metadata h);
              FEATURE_FLAG_OPTIONS_KEY := options |};
         guards := guards h |}
  end.

Definition UseGuards (g : Guard) (h : Handler) : Handler :=
  {| metadata := metadata h; guards := guards h ++ [g] |}.

Definition applyDecorators (decorators : list (Handler -> Handler))
    (h : Handler) : Handler :=
  fold_left (fun acc decorator => decorator acc) decorators h.

Definition FeatureFlag (flag : string) (options : option FeatureFlagOptions)
  : Handler -> Handler :=
  applyDecorators
    [ SetMetadata (feature_flag (FlagName flag));
      SetMetadata (feature_flag_options options);
      UseGuards FeatureGuard_class ].

(** A handler that carries no decorator. *)
Definition plain : Handler :=
  {| metadata := {| FEATURE_FLAG_KEY := FlagUndefined;
                    FEATURE_FLAG_OPTIONS_KEY := None |};
     guards := [] |}.

End Decorator.

(** * Vocabulary of the statements

    Definitions that the statements below use to describe what the code
    does: closed forms of the states it produces, the decision rule in the
    words of the specification, and the stores and requests on which the
    statements are instantiated. None of them is part of the program. *)

Module Vocabulary.
Import FeatureGuard.

(** ** For the store *)

(** The last character of a string, if any. *)
Fixpoint last_char (s : string) : option Ascii.ascii :=
  match s with
  | EmptyString => None
  | String c rest =>
      match rest with
      | EmptyString => Some c
      | String _ _ => last_char rest
      end
  end.

(** The entry that a call leaves under the users key: the set of the given
    identifiers, or no key at all when none is given. *)
Definition users_entry (o : SetFeatureFlagOptions) : option Redis.value :=
  match userIds o with
  | Some ((_ :: _) as ids) => Some (Redis.SetOf (list_to_set ids))
  | _ => None
  end.

(** The marker a call writes into the info hash. *)
Definition enabled_marker (o : SetFeatureFlagOptions) : string :=
  if enabled o then "true" else "false".

(** The database after a call that found the info hash [info]. *)
Definition written (prefix : string) (o : SetFeatureFlagOptions)
    (info : gmap string string) (db : gmap string Redis.value)
  : gmap string Redis.value :=
  let db1 := <[ RedisFeatureFlagCache.featureInfoKey prefix (flag o)
                  := Redis.Hash (<[ "enabled" := enabled_marker o ]> info) ]> db in
  match users_entry o with
  | Some v => <[ RedisFeatureFlagCache.featureUsersKey prefix (flag o) := v ]> db1
  | None => delete (RedisFeatureFlagCache.featureUsersKey prefix (flag o)) db1
  end.

(** The decision rule in the words of the specification, applied to what
    [getFeature] returned: [null] gives [false]; a disabled record gives
    [false]; a record without [userIds] gives [true]; otherwise the user
    must be among the [userIds]. *)
Definition decision_rule (record : option Feature) (userId : string) : bool :=
  match record with
  | None => false
  | Some r =>
      if negb (feature_enabled r) then false
      else
        match feature_userIds r with
        | None => true
        | Some ids => bool_decide (userId ∈ ids)
        end
  end.

(** A database holding the flag ["beta"], enabled for ["u1"] and ["u2"]. *)
Definition db_beta : gmap string Redis.value :=
  <[ RedisFeatureFlagCache.featureInfoKey "crudmates:feature-guard" "beta"
       := Redis.Hash {[ "enabled" := "true" ]} ]>
    (<[ RedisFeatureFlagCache.featureUsersKey "crudmates:feature-guard" "beta"
          := Redis.SetOf (list_to_set ["u1"; "u2"]) ]> ∅).

(** ** For the guard *)

(** The world after the guard has resolved the flag [key] for user [u]. *)
Definition resolved {St : Type} (w : World St) (key u : string) (value : bool)
    (st : St) : World St :=
  {| request :=
       {| __user_id := __user_id (request w);
          __is_admin := __is_admin (request w);
          __feature_flags :=
            Some (<[key := value]>
                    (default ∅ (__feature_flags (request w)))) |};
     store := st;
     calls := calls w ++ [Called_getFeature key; Called_hasFeatureFlag key u]
  |}.

(** The same world with another value in [request.__is_admin]. *)
Definition with_is_admin {St : Type} (v : JsValue) (w : World St) : World St :=
  {| request :=
       {| __user_id := __user_id (request w);
          __is_admin := v;
          __feature_flags := __feature_flags (request w) |};
     store := store w;
     calls := calls w |}.

(** A store that answers as told, the counterpart of the
    [jest.Mocked<FeatureGuardStore>] of the test suites: [getFeature] and
    [hasFeatureFlag] give the configured answers, whatever the flag. *)
Record MockStore : Type := {
  getFeature_answer : Result (option Feature);
  hasFeatureFlag_answer : Result bool
}.

#[export] Instance MockStore_implements_FeatureGuardStore
  : FeatureGuardStore MockStore := {|
  setFeatureFlag _ := resolve tt;
  getFeature _ := fun s => (getFeature_answer s, s);
  hasFeatureFlag _ _ := fun s => (hasFeatureFlag_answer s, s)
|}.

(** A store whose every call rejects: the backend cannot be reached. *)
Definition unreachable : MockStore :=
  {| getFeature_answer := Err (StoreFailure "ECONNREFUSED");
     hasFeatureFlag_answer := Err (StoreFailure "ECONNREFUSED") |}.

(** A handler decorated with [@FeatureFlag("test_feature")], and with the
    SERVICE scope option. *)
Definition test_feature : HandlerMetadata :=
  {| FEATURE_FLAG_KEY := FlagName "test_feature";
     FEATURE_FLAG_OPTIONS_KEY := None |}.

Definition test_feature_SERVICE : HandlerMetadata :=
  {| FEATURE_FLAG_KEY := FlagName "test_feature";
     FEATURE_FLAG_OPTIONS_KEY := Some {| scope := Some SERVICE |} |}.

(** A world whose request carries the given identity and flag object, with
    nothing called yet. *)
Definition arriving {St : Type} (userId : option string) (isAdmin : JsValue)
    (flags : gmap string bool) (st : St) : World St :=
  {| request := {| __user_id := userId; __is_admin := isAdmin;
                   __feature_flags := Some flags |};
     store := st;
     calls := [] |}.

(** A store answering [{ enabled }] and [hasFlag]. *)
Definition answering (enabled hasFlag : bool) : MockStore :=
  {| getFeature_answer :=
       Ok (Some {| feature_enabled := enabled; feature_userIds := None |});
     hasFeatureFlag_answer := Ok hasFlag |}.

(** A Redis store in which the flags ["A"] and ["B"] are both enabled for
    everyone. *)
Definition store_A_B : RedisFeatureFlagCache.t :=
  RedisFeatureFlagCache.new
    (<[ RedisFeatureFlagCache.featureInfoKey "crudmates:feature-guard" "A"
          := Redis.Hash {[ "enabled" := "true" ]} ]>
       (<[ RedisFeatureFlagCache.featureInfoKey "crudmates:feature-guard" "B"
             := Redis.Hash {[ "enabled" := "true" ]} ]> ∅))
    "crudmates:feature-guard".

(** The metadata of a handler decorated with the list [["A", "B"]]. *)
Definition flags_A_B : HandlerMetadata :=
  {| FEATURE_FLAG_KEY := FlagNames ["A"; "B"];
     FEATURE_FLAG_OPTIONS_KEY := None |}.

(** A Redis store whose flag ["corrupted_test"] has a marker that is not a
    boolean, and whose flag ["partial_test"] has an info hash without the
    marker. *)
Definition store_corrupted : RedisFeatureFlagCache.t :=
  RedisFeatureFlagCache.new
    (<[ RedisFeatureFlagCache.featureInfoKey
          "crudmates:feature-guard" "corrupted_test"
          := Redis.Hash {[ "enabled" := "not_a_boolean";
                           "corrupted_field" := "corrupted_value" ]} ]>
       (<[ RedisFeatureFlagCache.featureInfoKey
             "crudmates:feature-guard" "partial_test"
             := Redis.Hash {[ "other_field" := "value" ]} ]> ∅))
    "crudmates:feature-guard".

(** A Redis store in which ["admin_only_feature"] is enabled for
    ["real_admin"] alone. *)
Definition store_admin_only : RedisFeatureFlagCache.t :=
  RedisFeatureFlagCache.new
    (<[ RedisFeatureFlagCache.featureInfoKey
          "crudmates:feature-guard" "admin_only_feature"
          := Redis.Hash {[ "enabled" := "true" ]} ]>
       (<[ RedisFeatureFlagCache.featureUsersKey
             "crudmates:feature-guard" "admin_only_feature"
             := Redis.SetOf {[ "real_admin" ]} ]> ∅))
    "crudmates:feature-guard".

Definition admin_only_feature : HandlerMetadata :=
  {| FEATURE_FLAG_KEY := FlagNames ["admin_only_feature"];
     FEATURE_FLAG_OPTIONS_KEY := None |}.

(** The request of user ["u1"] arriving at [store_A_B]. *)
Definition u1_at_store_A_B : World RedisFeatureFlagCache.t :=
  arriving (Some "u1") (JsBoolean false) ∅ store_A_B.

(** A handler with two stacked decorators,
    [@FeatureFlag('beta_access') @FeatureFlag('feedback_system')]: the
    decorator next to the method is applied first. *)
Definition submitFeedback : Decorator.Handler :=
  Decorator.FeatureFlag "beta_access" None
    (Decorator.FeatureFlag "feedback_system" None Decorator.plain).

(** A Redis store in which ["beta_access"] is enabled for everyone and
    ["feedback_system"] is disabled. *)
Definition store_beta_access_only : RedisFeatureFlagCache.t :=
  RedisFeatureFlagCache.new
    (<[ RedisFeatureFlagCache.featureInfoKey
          "crudmates:feature-guard" "beta_access"
          := Redis.Hash {[ "enabled" := "true" ]} ]>
       (<[ RedisFeatureFlagCache.featureInfoKey
             "crudmates:feature-guard" "feedback_system"
             := Redis.Hash {[ "enabled" := "false" ]} ]> ∅))
    "crudmates:feature-guard".

(** The request of user ["u1"] arriving at [store_beta_access_only]. *)
Definition u1_at_store_beta_access_only : World RedisFeatureFlagCache.t :=
  arriving (Some "u1") (JsBoolean false) ∅ store_beta_access_only.

(** ** For the further properties *)

(** The set a key holds; empty when the key is missing. *)
Definition set_at (db : gmap string Redis.value) (key : string)
  : gset string :=
  match db !! key with
  | Some (Redis.SetOf s) => s
  | _ => ∅
  end.

(** A database whose info key for ["beta"] holds a set, and whose users key
    for ["gamma"] holds a hash: both keys are of the wrong kind. *)
Definition db_wrong_kinds : gmap string Redis.value :=
  <[ RedisFeatureFlagCache.featureInfoKey "crudmates:feature-guard" "beta"
       := Redis.SetOf {[ "x" ]} ]>
    (<[ RedisFeatureFlagCache.featureUsersKey "crudmates:feature-guard" "gamma"
          := Redis.Hash {[ "y" := "z" ]} ]>
       (<[ RedisFeatureFlagCache.featureInfoKey "crudmates:feature-guard" "gamma"
             := Redis.Hash {[ "enabled" := "false" ]} ]> ∅)).

End Vocabulary.

(** * Properties of the store *)

Module RedisFeatureFlagCacheFacts.
Import RedisFeatureFlagCache Vocabulary.

(** ** The two keys of a flag never collide *)

Lemma app_nonempty (a b : string) : b ≠ "" → a +:+ b ≠ "".
Proof. destruct a; simpl; [done | discriminate]. Qed.

Lemma last_char_app (a b : string) :
  b ≠ "" → last_char (a +:+ b) = last_char b.
Proof.
  intros Hb. induction a as [|c a IH]; [done |].
  change (String c a +:+ b) with (String c (a +:+ b)).
  pose proof (app_nonempty a b Hb) as Hne.
  simpl. destruct (a +:+ b) eqn:E; [done | exact IH].
Qed.

Lemma info_users_keys_differ (prefix f f' : string) :
  featureInfoKey prefix f ≠ featureUsersKey prefix f'.
Proof.
  unfold featureInfoKey, featureUsersKey. intros E.
  apply (f_equal last_char) in E.
  rewrite !last_char_app in E by (repeat apply app_nonempty; done).
  discriminate E.
Qed.

(** ** Reads leave the database as it is *)

Lemma hgetall_pure key db r db' :
  Redis.hgetall key db = (r, db') → db' = db.
Proof. unfold Redis.hgetall. repeat case_match; congruence. Qed.

Lemma smembers_pure key db r db' :
  Redis.smembers key db = (r, db') → db' = db.
Proof. unfold Redis.smembers. repeat case_match; congruence. Qed.

(** ** The batching loop adds every identifier from index [i] on *)

Lemma batchSize_pos : 0 < batchSize.
Proof. unfold batchSize. lia. Qed.

Lemma slice_batch (ids : list string) (i : nat) :
  slice i (i + batchSize) ids = take batchSize (drop i ids).
Proof. unfold slice. f_equal. lia. Qed.

Lemma batch_nonempty (ids : list string) (i : nat) :
  i < length ids → take batchSize (drop i ids) ≠ [].
Proof.
  intros Hi E. apply (f_equal length) in E.
  rewrite length_take, length_drop in E. cbn [length] in E.
  pose proof batchSize_pos. lia.
Qed.

Lemma batch_union (ids : list string) (i : nat) :
  (list_to_set (take batchSize (drop i ids)) : gset string)
    ∪ list_to_set (drop (i + batchSize) ids)
  = list_to_set (drop i ids).
Proof.
  rewrite <- list_to_set_app_L.
  rewrite <- (drop_drop ids batchSize i).
  by rewrite take_drop.
Qed.

Lemma sadd_on_set key members db (s : gset string) :
  members ≠ [] → db !! key = Some (Redis.SetOf s) →
  Redis.sadd key members db
  = (Ok tt, <[key := Redis.SetOf (s ∪ list_to_set members)]> db).
Proof. intros Hne Hkey. unfold Redis.sadd. rewrite Hkey. by destruct members. Qed.

Lemma sadd_fresh key members db :
  members ≠ [] → db !! key = None →
  Redis.sadd key members db
  = (Ok tt, <[key := Redis.SetOf (list_to_set members)]> db).
Proof. intros Hne Hkey. unfold Redis.sadd. rewrite Hkey. by destruct members. Qed.

Lemma sadd_batches_on_set key ids i db (s : gset string) :
  db !! key = Some (Redis.SetOf s) →
  sadd_batches key ids i db
  = (Ok tt, <[key := Redis.SetOf (s ∪ list_to_set (drop i ids))]> db).
Proof.
  remember (length ids - i) as n eqn:Hn.
  revert i db s Hn.
  induction n as [n IH] using lt_wf_ind. intros i db s Hn Hkey.
  rewrite sadd_batches_equation_1.
  destruct (decide (i < length ids)) as [Hi | Hi]; simpl.
  - rewrite slice_batch.
    rewrite (sadd_on_set _ _ _ s) by auto using batch_nonempty. simpl.
    erewrite (IH (length ids - (i + batchSize)));
      [ | pose proof batchSize_pos; lia | reflexivity
        | by rewrite lookup_insert_eq ].
    rewrite insert_insert_eq. do 3 f_equal.
    rewrite <- (assoc_L (∪)). by rewrite batch_union.
  - rewrite drop_ge by lia. simpl.
    rewrite (right_id_L ∅ (∪)). by rewrite insert_id.
Qed.

Lemma sadd_batches_fresh key ids db :
  db !! key = None → ids ≠ [] →
  sadd_batches key ids 0 db
  = (Ok tt, <[key := Redis.SetOf (list_to_set ids)]> db).
Proof.
  intros Hkey Hids.
  rewrite sadd_batches_equation_1.
  destruct (decide (0 < length ids)) as [Hi | Hi]; simpl.
  - rewrite slice_batch.
    rewrite sadd_fresh by auto using batch_nonempty. simpl.
    erewrite sadd_batches_on_set by (by rewrite lookup_insert_eq).
    rewrite insert_insert_eq. do 3 f_equal.
    exact (batch_union ids 0).
  - destruct ids; [done | simpl in Hi; lia].
Qed.

(** ** What SMEMBERS returns for the user set of a flag *)

Lemma smembers_absent key db :
  db !! key = None → Redis.smembers key db = (Ok [], db).
Proof. unfold Redis.smembers. by intros ->. Qed.

Lemma smembers_set key db (s : gset string) :
  db !! key = Some (Redis.SetOf s) →
  Redis.smembers key db = (Ok (elements s), db).
Proof. unfold Redis.smembers. by intros ->. Qed.

Lemma includes_elements (s : gset string) (u : string) :
  includes (elements s) u = bool_decide (u ∈ s).
Proof. unfold includes. apply bool_decide_ext, elem_of_elements. Qed.

Lemma has_members_elements (s : gset string) :
  bool_decide (0 < length (elements s)) = bool_decide (s ≠ ∅).
Proof.
  apply bool_decide_ext. split.
  - intros Hlen ->. rewrite elements_empty in Hlen. simpl in Hlen. lia.
  - intros Hne. destruct (elements s) eqn:E; [| simpl; lia].
    apply elements_empty_inv, leibniz_equiv in E. done.
Qed.

(** ** The decision of [hasFeatureFlag] *)

(** The body of [hasFeatureFlag] once HGETALL has answered. *)
Lemma hasFeatureFlag_unfold prefix f u db info :
  Redis.hgetall (featureInfoKey prefix f) db = (Ok info, db) →
  hasFeatureFlag prefix f u db
  = match info !! "enabled" with
    | None => (Ok false, db)
    | Some v =>
        if bool_decide (v = "true")
        then
          match Redis.smembers (featureUsersKey prefix f) db with
          | (Ok us, db') =>
              (Ok (if bool_decide (0 < length us) then includes us u else true),
               db')
          | (Err e, db') => (Err e, db')
          end
        else (Ok false, db)
    end.
Proof.
  intros Hinfo. unfold hasFeatureFlag, and_then. rewrite Hinfo.
  destruct (info !! "enabled") as [v|]; [| done].
  destruct (bool_decide (v = "true")); simpl; [| done].
  destruct (Redis.smembers _ db) as [[us|e] db']; [| done].
  by destruct (bool_decide (0 < length us)).
Qed.

(** C1. For every flag and user, [hasFeatureFlag] answers: [false] when the
    info hash has no ["enabled"] field; [false] when that field holds any
    string other than ["true"] (and it answers, it does not reject); [true]
    when the field is ["true"] and the user set is absent or empty; and
    whether the user is a member of the user set when the field is ["true"]
    and the set is not empty. *)
Theorem hasFeatureFlag_decision
    (prefix f u : string) (db : gmap string Redis.value)
    (info : gmap string string) :
  Redis.hgetall (featureInfoKey prefix f) db = (Ok info, db) →
  (info !! "enabled" = None →
     hasFeatureFlag prefix f u db = (Ok false, db))
  ∧ (∀ v, info !! "enabled" = Some v → v ≠ "true" →
       hasFeatureFlag prefix f u db = (Ok false, db))
  ∧ (info !! "enabled" = Some "true" →
       db !! featureUsersKey prefix f = None
       ∨ db !! featureUsersKey prefix f = Some (Redis.SetOf ∅) →
       hasFeatureFlag prefix f u db = (Ok true, db))
  ∧ (∀ users : gset string,
       info !! "enabled" = Some "true" →
       db !! featureUsersKey prefix f = Some (Redis.SetOf users) →
       users ≠ ∅ →
       hasFeatureFlag prefix f u db = (Ok (bool_decide (u ∈ users)), db)).
Proof.
  intros Hinfo. rewrite (hasFeatureFlag_unfold _ _ _ _ _ Hinfo).
  repeat split.
  - by intros ->.
  - intros v -> Hv. by rewrite bool_decide_eq_false_2.
  - intros -> [Hu | Hu].
    + by rewrite (smembers_absent _ _ Hu).
    + rewrite (smembers_set _ _ _ Hu), elements_empty. done.
  - intros users -> Hu Hne.
    rewrite (smembers_set _ _ _ Hu), has_members_elements.
    rewrite (bool_decide_eq_true_2 (users ≠ ∅)) by done.
    by rewrite includes_elements.
Qed.

Lemma db_beta_info :
  Redis.hgetall (featureInfoKey "crudmates:feature-guard" "beta") db_beta
  = (Ok {[ "enabled" := "true" ]}, db_beta).
Proof. unfold Redis.hgetall, db_beta. by rewrite lookup_insert_eq. Qed.

Lemma db_beta_users :
  db_beta !! featureUsersKey "crudmates:feature-guard" "beta"
  = Some (Redis.SetOf (list_to_set ["u1"; "u2"])).
Proof.
  unfold db_beta.
  rewrite lookup_insert_ne by apply info_users_keys_differ.
  apply lookup_insert_eq.
Qed.

Lemma hasFeatureFlag_decision_witness :
  hasFeatureFlag "crudmates:feature-guard" "ghost" "anyone" ∅ = (Ok false, ∅)
  ∧ hasFeatureFlag "crudmates:feature-guard" "beta" "u1" db_beta
    = (Ok true, db_beta)
  ∧ hasFeatureFlag "crudmates:feature-guard" "beta" "u3" db_beta
    = (Ok false, db_beta).
Proof.
  assert (Hne : (list_to_set ["u1"; "u2"] : gset string) ≠ ∅) by set_solver.
  split; [| split].
  - apply (hasFeatureFlag_decision
             "crudmates:feature-guard" "ghost" "anyone" ∅ ∅); reflexivity.
  - destruct (hasFeatureFlag_decision _ _ "u1" _ _ db_beta_info)
      as (_ & _ & _ & H4).
    rewrite (H4 _ (lookup_singleton_eq _ _) db_beta_users Hne).
    by rewrite bool_decide_eq_true_2 by set_solver.
  - destruct (hasFeatureFlag_decision _ _ "u3" _ _ db_beta_info)
      as (_ & _ & _ & H4).
    rewrite (H4 _ (lookup_singleton_eq _ _) db_beta_users Hne).
    rewrite bool_decide_eq_false_2; [done |].
    rewrite elem_of_list_to_set, !elem_of_cons, elem_of_nil.
    intros [? | [? | []]]; discriminate.
Defined.

(** ** [getFeature]: when it answers [null] *)

(** The body of [getFeature] once HGETALL has answered. *)
Lemma getFeature_unfold prefix f db info :
  Redis.hgetall (featureInfoKey prefix f) db = (Ok info, db) →
  getFeature prefix f db
  = match info !! "enabled" with
    | None => (Ok None, db)
    | Some v =>
        match Redis.smembers (featureUsersKey prefix f) db with
        | (Ok us, db') =>
            (Ok (Some {| feature_enabled := bool_decide (v = "true");
                         feature_userIds :=
                           if bool_decide (0 < length us) then Some us
                           else None |}), db')
        | (Err e, db') => (Err e, db')
        end
    end.
Proof.
  intros Hinfo. unfold getFeature, and_then. rewrite Hinfo.
  destruct (info !! "enabled") as [v|]; [| done].
  by destruct (Redis.smembers _ db) as [[us|e] db'].
Qed.

(** A rejection of HGETALL is a rejection of both reads. *)
Lemma reads_reject_together prefix f u db e :
  Redis.hgetall (featureInfoKey prefix f) db = (Err e, db) →
  getFeature prefix f db = (Err e, db)
  ∧ hasFeatureFlag prefix f u db = (Err e, db).
Proof.
  intros Hinfo. unfold getFeature, hasFeatureFlag, and_then.
  by rewrite Hinfo.
Qed.

(** C7. [getFeature] answers [null] when the info hash of the flag has no
    ["enabled"] field (which covers a flag that was never written: its hash
    is empty); it answers a record when the field is present (the user set
    being readable); and whatever it answers is [null] only if the field is
    missing. *)
Theorem getFeature_null_iff_no_enabled
    (prefix f : string) (db : gmap string Redis.value)
    (info : gmap string string) :
  Redis.hgetall (featureInfoKey prefix f) db = (Ok info, db) →
  (info !! "enabled" = None → getFeature prefix f db = (Ok None, db))
  ∧ (∀ us, is_Some (info !! "enabled") →
       Redis.smembers (featureUsersKey prefix f) db = (Ok us, db) →
       ∃ record, getFeature prefix f db = (Ok (Some record), db))
  ∧ (∀ r db', getFeature prefix f db = (Ok r, db') →
       (r = None ↔ info !! "enabled" = None)).
Proof.
  intros Hinfo. rewrite (getFeature_unfold _ _ _ _ Hinfo).
  split; [| split].
  - by intros ->.
  - intros us [v ->] ->. by eexists.
  - intros r db'. destruct (info !! "enabled") as [v |].
    + destruct (Redis.smembers _ db) as [[us | e] db1]; intros [= <- <-].
      split; congruence.
    + by intros [= <- <-].
Qed.

Lemma getFeature_null_iff_no_enabled_witness :
  getFeature "crudmates:feature-guard" "ghost" ∅ = (Ok None, ∅)
  ∧ (∃ record, getFeature "crudmates:feature-guard" "beta" db_beta
               = (Ok (Some record), db_beta)).
Proof.
  split.
  - apply (getFeature_null_iff_no_enabled
             "crudmates:feature-guard" "ghost" ∅ ∅); reflexivity.
  - eapply (getFeature_null_iff_no_enabled
              "crudmates:feature-guard" "beta" db_beta _ db_beta_info).
    + by rewrite lookup_singleton_eq.
    + exact (smembers_set _ _ _ db_beta_users).
Defined.

(** ** The two read paths agree *)

(** C10. On one store state, whenever [getFeature] returns, [hasFeatureFlag]
    returns the decision rule applied to that result, for every user; the
    state is left as it was; and the record never carries an empty
    [userIds] array. *)
Theorem hasFeatureFlag_refines_getFeature
    (prefix f u : string) (db db' : gmap string Redis.value)
    (r : option Feature) :
  getFeature prefix f db = (Ok r, db') →
  db' = db
  ∧ hasFeatureFlag prefix f u db = (Ok (decision_rule r u), db)
  ∧ (∀ record, r = Some record → feature_userIds record ≠ Some []).
Proof.
  intros Hget.
  destruct (Redis.hgetall (featureInfoKey prefix f) db) as [[info|e] db0]
    eqn:Hinfo.
  2:{ unfold getFeature, and_then in Hget. by rewrite Hinfo in Hget. }
  pose proof (hgetall_pure _ _ _ _ Hinfo) as ->.
  rewrite (getFeature_unfold _ _ _ _ Hinfo) in Hget.
  rewrite (hasFeatureFlag_unfold _ _ _ _ _ Hinfo).
  destruct (info !! "enabled") as [v|].
  2:{ injection Hget as <- <-. repeat split. congruence. }
  destruct (Redis.smembers _ db) as [[us|e] db1] eqn:Hus; [| done].
  pose proof (smembers_pure _ _ _ _ Hus) as ->.
  injection Hget as <- <-. simpl.
  destruct (bool_decide (v = "true")); simpl;
    destruct us as [|x us]; simpl; repeat split; try done;
    intros record [= <-]; simpl; congruence.
Qed.

Lemma hasFeatureFlag_refines_getFeature_witness :
  hasFeatureFlag "crudmates:feature-guard" "beta" "u1" db_beta
  = (Ok (decision_rule
           (Some {| feature_enabled := true;
                    feature_userIds :=
                      Some (elements (list_to_set ["u1"; "u2"] : gset string))
                 |}) "u1"),
     db_beta).
Proof.
  apply (hasFeatureFlag_refines_getFeature
           "crudmates:feature-guard" "beta" "u1" db_beta db_beta).
  rewrite (getFeature_unfold _ _ _ _ db_beta_info).
  rewrite lookup_singleton_eq, (smembers_set _ _ _ db_beta_users).
  rewrite has_members_elements.
  rewrite (bool_decide_eq_true_2 (_ ≠ ∅)) by set_solver.
  reflexivity.
Defined.

(** ** [setFeatureFlag] replaces the record of a flag *)

Lemma hmset_enabled key marker db info :
  Redis.hgetall key db = (Ok info, db) →
  Redis.hmset key {[ "enabled" := marker ]} db
  = (Ok tt, <[ key := Redis.Hash (<[ "enabled" := marker ]> info) ]> db).
Proof.
  unfold Redis.hgetall, Redis.hmset.
  destruct (db !! key) as [[h | s] |]; intros [= <-].
  - by rewrite <- insert_union_singleton_l.
  - by rewrite insert_empty.
Qed.

Lemma hmset_rejects key fields db e db' :
  Redis.hmset key fields db = (Err e, db') →
  Redis.hgetall key db = (Err e, db').
Proof.
  unfold Redis.hgetall, Redis.hmset.
  by destruct (db !! key) as [[h | s] |]; intros [= <- <-].
Qed.

Lemma setFeatureFlag_written prefix o db info :
  Redis.hgetall (featureInfoKey prefix (flag o)) db = (Ok info, db) →
  setFeatureFlag prefix o db = (Ok tt, written prefix o info db).
Proof.
  intros Hinfo. unfold setFeatureFlag, and_then, written, users_entry.
  rewrite (hmset_enabled _ _ _ _ Hinfo).
  fold (enabled_marker o).
  destruct (userIds o) as [[| x ids] |]; try done.
  unfold Redis.del.
  rewrite sadd_batches_fresh by (done || apply lookup_delete_eq).
  by rewrite insert_delete_eq.
Qed.

Lemma setFeatureFlag_succeeds_inv prefix o db db1 :
  setFeatureFlag prefix o db = (Ok tt, db1) →
  ∃ info, Redis.hgetall (featureInfoKey prefix (flag o)) db = (Ok info, db)
          ∧ db1 = written prefix o info db.
Proof.
  intros Hset.
  destruct (Redis.hgetall (featureInfoKey prefix (flag o)) db)
    as [[info | e] db0] eqn:Hinfo.
  - pose proof (hgetall_pure _ _ _ _ Hinfo) as ->.
    exists info. split; [done |].
    rewrite (setFeatureFlag_written _ _ _ _ Hinfo) in Hset. congruence.
  - exfalso. unfold Redis.hgetall in Hinfo.
    unfold setFeatureFlag, and_then, Redis.hmset in Hset.
    destruct (db !! featureInfoKey prefix (flag o)) as [[h | s] |];
      congruence.
Qed.

Lemma written_lookup prefix o info db k :
  written prefix o info db !! k
  = if decide (k = featureUsersKey prefix (flag o)) then users_entry o
    else if decide (k = featureInfoKey prefix (flag o))
         then Some (Redis.Hash (<[ "enabled" := enabled_marker o ]> info))
         else db !! k.
Proof.
  unfold written.
  pose proof (info_users_keys_differ prefix (flag o) (flag o)) as Hne.
  destruct (users_entry o) as [v |]; repeat case_decide; subst;
    simplify_map_eq; done.
Qed.

Lemma written_info prefix o info db :
  Redis.hgetall (featureInfoKey prefix (flag o)) (written prefix o info db)
  = (Ok (<[ "enabled" := enabled_marker o ]> info), written prefix o info db).
Proof.
  unfold Redis.hgetall. rewrite written_lookup.
  pose proof (info_users_keys_differ prefix (flag o) (flag o)) as Hne.
  repeat case_decide; done.
Qed.

Lemma written_twice prefix o1 o2 info db :
  flag o1 = flag o2 →
  written prefix o2 (<[ "enabled" := enabled_marker o1 ]> info)
    (written prefix o1 info db)
  = written prefix o2 info db.
Proof.
  intros Hflag. apply map_eq. intros k.
  rewrite !written_lookup, Hflag, insert_insert_eq.
  repeat case_decide; done.
Qed.

(** C8. [setFeatureFlag] replaces the record of the flag as a whole. After a
    first call for a flag, a second call for the same flag always succeeds
    and leaves: the marker of the second call; under the users key exactly
    the set of the second list, or no key at all when the second call gives
    an empty or no list; and the very database the second call alone would
    have produced, so nothing of the first list is merged in. Repeating the
    second call changes nothing. *)
Theorem setFeatureFlag_replaces
    (prefix f : string) (e1 e2 : bool) (ids1 ids2 : option (list string))
    (db db1 : gmap string Redis.value) :
  let first := {| flag := f; enabled := e1; userIds := ids1 |} in
  let second := {| flag := f; enabled := e2; userIds := ids2 |} in
  setFeatureFlag prefix first db = (Ok tt, db1) →
  ∃ db2,
    setFeatureFlag prefix second db1 = (Ok tt, db2)
    ∧ (∃ info, Redis.hgetall (featureInfoKey prefix f) db2 = (Ok info, db2)
               ∧ info !! "enabled" = Some (if e2 then "true" else "false"))
    ∧ db2 !! featureUsersKey prefix f
      = match ids2 with
        | Some ((_ :: _) as ids) => Some (Redis.SetOf (list_to_set ids))
        | _ => None
        end
    ∧ setFeatureFlag prefix second db = (Ok tt, db2)
    ∧ setFeatureFlag prefix second db2 = (Ok tt, db2).
Proof.
  intros first second Hfirst.
  destruct (setFeatureFlag_succeeds_inv _ _ _ _ Hfirst) as (info & Hinfo & ->).
  pose proof (written_info prefix first info db) as Hinfo1.
  pose proof (written_info prefix second info db) as Hinfo2.
  exists (written prefix second info db). repeat split.
  - rewrite (setFeatureFlag_written prefix second _ _ Hinfo1).
    by rewrite (written_twice prefix first second).
  - eexists. split; [exact Hinfo2 |]. apply lookup_insert_eq.
  - rewrite written_lookup. by rewrite decide_True.
  - exact (setFeatureFlag_written prefix second _ _ Hinfo).
  - rewrite (setFeatureFlag_written prefix second _ _ Hinfo2).
    by rewrite (written_twice prefix second second).
Qed.

Lemma setFeatureFlag_replaces_witness :
  ∃ db2,
    setFeatureFlag "crudmates:feature-guard"
      {| flag := "beta"; enabled := false; userIds := None |} db_beta
    = (Ok tt, db2)
    ∧ db2 !! featureUsersKey "crudmates:feature-guard" "beta" = None.
Proof.
  assert (Hfirst :
    setFeatureFlag "crudmates:feature-guard"
      {| flag := "beta"; enabled := true; userIds := Some ["u1"; "u2"] |} ∅
    = (Ok tt, db_beta)).
  { rewrite (setFeatureFlag_written _ _ ∅ ∅) by reflexivity.
    unfold written, db_beta, users_entry, enabled_marker. cbn [userIds flag enabled].
    rewrite insert_empty.
    rewrite insert_insert_ne; [done | apply info_users_keys_differ]. }
  destruct (setFeatureFlag_replaces
              "crudmates:feature-guard" "beta" true false
              (Some ["u1"; "u2"]) None ∅ db_beta Hfirst)
    as (db2 & Hsecond & _ & Husers & _).
  exists db2. split; [exact Hsecond | exact Husers].
Defined.

End RedisFeatureFlagCacheFacts.

(** * Properties of the guard *)

Module FeatureGuardFacts.
Import FeatureGuard Vocabulary.

Lemma strictly_true_iff (v : JsValue) :
  strictly_true v = true ↔ v = JsBoolean true.
Proof. destruct v as [| | [|] | | | |]; simpl; split; congruence. Qed.

Lemma not_strictly_true (v : JsValue) :
  v ≠ JsBoolean true → strictly_true v = false.
Proof.
  intros Hv. destruct (strictly_true v) eqn:E; [| done].
  by apply strictly_true_iff in E.
Qed.

(** [enabled] is a boolean, so the two tests of it agree. *)
Lemma enabled_truthy_is_true (feature : option Feature) :
  enabled_truthy feature = enabled_is_true feature.
Proof. by destruct feature as [[[|] ids] |]. Qed.

Section WithStore.
Context {St : Type} `{FeatureGuardStore St}.

(** ** The ways a run can go *)

Lemma canActivate_resolves handler (w : World St) u key feature hasFlag st1 st2 :
  __user_id (request w) = Some u →
  __is_admin (request w) ≠ JsBoolean true →
  flag_to_string (FEATURE_FLAG_KEY handler) = Some key →
  getFeature key (store w) = (Ok feature, st1) →
  hasFeatureFlag key u st1 = (Ok hasFlag, st2) →
  canActivate handler w
  = (Ok (if scope_is_not_SERVICE (FEATURE_FLAG_OPTIONS_KEY handler)
         then enabled_is_true feature && hasFlag
         else true),
     resolved w key u (enabled_is_true feature && hasFlag) st2).
Proof.
  intros Hu Hadmin Hkey Hget Hhas.
  unfold canActivate, and_then, getRequest.
  rewrite Hu, (not_strictly_true _ Hadmin), Hkey. simpl.
  unfold store_getFeature. rewrite Hget. simpl.
  unfold store_hasFeatureFlag. simpl. rewrite Hhas. simpl.
  unfold resolved, resolve. rewrite Hu, <- (assoc_L (++)). simpl.
  rewrite enabled_truthy_is_true.
  destruct (scope_is_not_SERVICE _); [| done].
  by destruct (enabled_is_true feature), hasFlag.
Qed.

(** A rejection of [getFeature] rejects the run; the request is untouched. *)
Lemma canActivate_getFeature_rejects handler (w : World St) u key e st1 :
  __user_id (request w) = Some u →
  __is_admin (request w) ≠ JsBoolean true →
  flag_to_string (FEATURE_FLAG_KEY handler) = Some key →
  getFeature key (store w) = (Err e, st1) →
  canActivate handler w
  = (Err e, {| request := request w; store := st1;
               calls := calls w ++ [Called_getFeature key] |}).
Proof.
  intros Hu Hadmin Hkey Hget.
  unfold canActivate, and_then, getRequest.
  rewrite Hu, (not_strictly_true _ Hadmin), Hkey. simpl.
  unfold store_getFeature. by rewrite Hget.
Qed.

(** So does a rejection of [hasFeatureFlag], after [getFeature] answered. *)
Lemma canActivate_hasFeatureFlag_rejects
    handler (w : World St) u key feature e st1 st2 :
  __user_id (request w) = Some u →
  __is_admin (request w) ≠ JsBoolean true →
  flag_to_string (FEATURE_FLAG_KEY handler) = Some key →
  getFeature key (store w) = (Ok feature, st1) →
  hasFeatureFlag key u st1 = (Err e, st2) →
  canActivate handler w
  = (Err e, {| request := request w; store := st2;
               calls := calls w ++ [Called_getFeature key;
                                    Called_hasFeatureFlag key u] |}).
Proof.
  intros Hu Hadmin Hkey Hget Hhas.
  unfold canActivate, and_then, getRequest.
  rewrite Hu, (not_strictly_true _ Hadmin), Hkey. simpl.
  unfold store_getFeature. rewrite Hget. simpl.
  unfold store_hasFeatureFlag. simpl. rewrite Hhas.
  by rewrite <- (assoc_L (++)).
Qed.

(** The admin bypass: the run returns [true] and touches nothing. *)
Lemma canActivate_admin handler (w : World St) :
  __is_admin (request w) = JsBoolean true →
  canActivate handler w = (Ok true, w).
Proof.
  intros Hadmin. unfold canActivate, and_then, getRequest.
  rewrite Hadmin. simpl. by rewrite andb_false_r.
Qed.

(** No identity: the run returns [false] and touches nothing. *)
Lemma canActivate_anonymous handler (w : World St) :
  __user_id (request w) = None →
  __is_admin (request w) ≠ JsBoolean true →
  canActivate handler w = (Ok false, w).
Proof.
  intros Hu Hadmin. unfold canActivate, and_then, getRequest.
  by rewrite Hu, (not_strictly_true _ Hadmin).
Qed.

(** The guard returns [false] at once when no flag is configured. *)
Lemma canActivate_no_flag handler (w : World St) :
  flag_to_string (FEATURE_FLAG_KEY handler) = None →
  __is_admin (request w) ≠ JsBoolean true →
  canActivate handler w = (Ok false, w).
Proof.
  intros Hkey Hadmin. unfold canActivate, and_then, getRequest.
  rewrite (not_strictly_true _ Hadmin), Hkey. simpl.
  by destruct (bool_decide _).
Qed.

(** ** The identity gate *)

(** C2. When [__is_admin] is the boolean [true], [canActivate] returns
    [true] and the world is what it was: no store method has been called
    (the call log and the store are unchanged) and [__feature_flags] is
    untouched. This holds for every store, every configured flag and every
    scope, so also when the flag is disabled, absent or the store rejects. *)
Theorem admin_bypass (handler : HandlerMetadata) (w : World St) :
  __is_admin (request w) = JsBoolean true →
  canActivate handler w = (Ok true, w)
  ∧ calls (snd (canActivate handler w)) = calls w
  ∧ store (snd (canActivate handler w)) = store w
  ∧ __feature_flags (request (snd (canActivate handler w)))
    = __feature_flags (request w).
Proof.
  intros Hadmin. by rewrite (canActivate_admin handler w Hadmin).
Qed.

(** C4. When [__user_id] is undefined and [__is_admin] is not the boolean
    [true], [canActivate] returns [false] (it does not reject) and the world
    is what it was: no store method has been called and [__feature_flags]
    is untouched. *)
Theorem anonymous_denied (handler : HandlerMetadata) (w : World St) :
  __user_id (request w) = None →
  __is_admin (request w) ≠ JsBoolean true →
  canActivate handler w = (Ok false, w)
  ∧ calls (snd (canActivate handler w)) = calls w
  ∧ store (snd (canActivate handler w)) = store w
  ∧ __feature_flags (request (snd (canActivate handler w)))
    = __feature_flags (request w).
Proof.
  intros Hu Hadmin. by rewrite (canActivate_anonymous handler w Hu Hadmin).
Qed.

Lemma canActivate_ignores_non_true_admin handler (w : World St) :
  __is_admin (request w) ≠ JsBoolean true →
  canActivate handler w
  = (let (r, w') := canActivate handler (with_is_admin (JsBoolean false) w) in
     (r, with_is_admin (__is_admin (request w)) w')).
Proof.
  intros Hadmin. destruct w as [[uid adm flags] st cs]. simpl in *.
  unfold canActivate, and_then, getRequest, with_is_admin. simpl.
  rewrite (not_strictly_true _ Hadmin). simpl.
  destruct uid as [u |]; simpl; [| done].
  destruct (flag_to_string _) as [key |]; [| done].
  unfold store_getFeature. simpl.
  destruct (getFeature key st) as [[feature | e] st1]; [| done].
  unfold store_hasFeatureFlag. simpl.
  destruct (hasFeatureFlag key u st1) as [[hasFlag | e] st2]; [| done].
  simpl.
  destruct (scope_is_not_SERVICE _); [| done].
  by destruct (negb (enabled_truthy feature) || negb hasFlag).
Qed.

(** C3. When [__is_admin] is anything but the boolean [true] (the string
    ["true"], the number 1, an object, an array, ...), the bypass is not
    taken: the run is the one of the same request with [__is_admin: false];
    without a [__user_id] it is a denial; and with one, under CONTROLLER
    scope, a flag the store does not grant to the user is a denial. *)
Theorem non_true_admin_never_bypasses
    (handler : HandlerMetadata) (w : World St) :
  __is_admin (request w) ≠ JsBoolean true →
  canActivate handler w
  = (let (r, w') := canActivate handler (with_is_admin (JsBoolean false) w) in
     (r, with_is_admin (__is_admin (request w)) w'))
  ∧ (__user_id (request w) = None → canActivate handler w = (Ok false, w))
  ∧ (∀ u key feature st1 st2,
       __user_id (request w) = Some u →
       flag_to_string (FEATURE_FLAG_KEY handler) = Some key →
       getFeature key (store w) = (Ok feature, st1) →
       hasFeatureFlag key u st1 = (Ok false, st2) →
       scope_is_not_SERVICE (FEATURE_FLAG_OPTIONS_KEY handler) = true →
       fst (canActivate handler w) = Ok false).
Proof.
  intros Hadmin. split; [| split].
  - by apply canActivate_ignores_non_true_admin.
  - intros Hu. by apply canActivate_anonymous.
  - intros u key feature st1 st2 Hu Hkey Hget Hhas Hscope.
    rewrite (canActivate_resolves _ _ _ _ _ _ _ _ Hu Hadmin Hkey Hget Hhas).
    rewrite Hscope. simpl. by rewrite andb_false_r.
Qed.

(** ** Recording the result and deciding *)

(** C9. When [canActivate] writes the result for a flag into the request,
    the new [__feature_flags] is the old one (the empty object when there
    was none) with the entry of that flag set to the result: the entry of
    every other name is what it was, and the entry of the flag is the new
    result whatever it was before. *)
Theorem feature_flags_merge
    (handler : HandlerMetadata) (w : World St)
    (u key : string) (feature : option Feature) (hasFlag : bool)
    (st1 st2 : St) :
  __user_id (request w) = Some u →
  __is_admin (request w) ≠ JsBoolean true →
  flag_to_string (FEATURE_FLAG_KEY handler) = Some key →
  getFeature key (store w) = (Ok feature, st1) →
  hasFeatureFlag key u st1 = (Ok hasFlag, st2) →
  let old := default ∅ (__feature_flags (request w)) in
  let value := enabled_is_true feature && hasFlag in
  ∃ new,
    __feature_flags (request (snd (canActivate handler w))) = Some new
    ∧ new = <[key := value]> old
    ∧ new !! key = Some value
    ∧ (∀ name, name ≠ key → new !! name = old !! name).
Proof.
  intros Hu Hadmin Hkey Hget Hhas old value.
  rewrite (canActivate_resolves _ _ _ _ _ _ _ _ Hu Hadmin Hkey Hget Hhas).
  eexists. split; [reflexivity |]. split; [reflexivity |]. split.
  - apply lookup_insert_eq.
  - intros name Hname. by apply lookup_insert_ne.
Qed.

(** C6, as the code has it. Under SERVICE scope, a run that gets past the
    identity gate (the request has a [__user_id]), has a flag configured and
    whose store calls return, returns [true] whatever the store answered;
    unless the admin bypass applies, the result for the flag is recorded in
    [__feature_flags]. *)
Theorem service_scope_allows
    (handler : HandlerMetadata) (w : World St)
    (u key : string) (feature : option Feature) (hasFlag : bool)
    (st1 st2 : St) :
  FEATURE_FLAG_OPTIONS_KEY handler = Some {| scope := Some SERVICE |} →
  __user_id (request w) = Some u →
  flag_to_string (FEATURE_FLAG_KEY handler) = Some key →
  getFeature key (store w) = (Ok feature, st1) →
  hasFeatureFlag key u st1 = (Ok hasFlag, st2) →
  fst (canActivate handler w) = Ok true
  ∧ (__is_admin (request w) ≠ JsBoolean true →
     ∃ flags,
       __feature_flags (request (snd (canActivate handler w))) = Some flags
       ∧ flags !! key = Some (enabled_is_true feature && hasFlag)).
Proof.
  intros Hscope Hu Hkey Hget Hhas.
  destruct (decide (__is_admin (request w) = JsBoolean true)) as [Ha | Ha].
  - rewrite (canActivate_admin handler w Ha). by split.
  - rewrite (canActivate_resolves _ _ _ _ _ _ _ _ Hu Ha Hkey Hget Hhas).
    rewrite Hscope. simpl. split; [done |]. intros _.
    eexists. split; [reflexivity |]. apply lookup_insert_eq.
Qed.

(** One flag. The guard resolves the one flag name configured
    for the handler. For a request with a [__user_id] that is not admin, it
    calls [getFeature] and then [hasFeatureFlag] for that name, whatever
    [getFeature] answered; it records the result under that name in
    [__feature_flags] also when the decision is a denial; and under
    CONTROLLER scope the decision is the recorded boolean. *)
Theorem single_flag_resolved_and_recorded
    (handler : HandlerMetadata) (w : World St)
    (u name : string) (feature : option Feature) (hasFlag : bool)
    (st1 st2 : St) :
  __user_id (request w) = Some u →
  __is_admin (request w) ≠ JsBoolean true →
  FEATURE_FLAG_KEY handler = FlagName name →
  getFeature name (store w) = (Ok feature, st1) →
  hasFeatureFlag name u st1 = (Ok hasFlag, st2) →
  let value := enabled_is_true feature && hasFlag in
  ∃ allowed w',
    canActivate handler w = (Ok allowed, w')
    ∧ calls w'
      = (calls w
           ++ [Called_getFeature name; Called_hasFeatureFlag name u])%list
    ∧ (∃ flags, __feature_flags (request w') = Some flags
                ∧ flags !! name = Some value)
    ∧ (scope_is_not_SERVICE (FEATURE_FLAG_OPTIONS_KEY handler) = true →
       allowed = value).
Proof.
  intros Hu Hadmin Hflag Hget Hhas value.
  assert (Hkey : flag_to_string (FEATURE_FLAG_KEY handler) = Some name)
    by (by rewrite Hflag).
  rewrite (canActivate_resolves _ _ _ _ _ _ _ _ Hu Hadmin Hkey Hget Hhas).
  do 2 eexists. split; [reflexivity |]. split; [reflexivity |]. split.
  - eexists. split; [reflexivity |]. apply lookup_insert_eq.
  - by intros ->.
Qed.

End WithStore.

(** ** Runs on concrete requests *)

Lemma admin_bypass_witness :
  canActivate test_feature (arriving None (JsBoolean true) ∅ unreachable)
  = (Ok true, arriving None (JsBoolean true) ∅ unreachable).
Proof.
  apply (admin_bypass test_feature
           (arriving None (JsBoolean true) ∅ unreachable)).
  reflexivity.
Defined.

Lemma anonymous_denied_witness :
  canActivate test_feature (arriving None (JsBoolean false) ∅ unreachable)
  = (Ok false, arriving None (JsBoolean false) ∅ unreachable).
Proof.
  apply (anonymous_denied test_feature
           (arriving None (JsBoolean false) ∅ unreachable)).
  - reflexivity.
  - discriminate.
Defined.

Lemma non_true_admin_never_bypasses_witness :
  canActivate test_feature
    (arriving None (JsString "true") ∅ (answering true true))
  = (Ok false, arriving None (JsString "true") ∅ (answering true true))
  ∧ fst (canActivate test_feature
           (arriving (Some "fake_admin") (JsNumber 1) ∅ (answering true false)))
    = Ok false.
Proof.
  split.
  - apply (non_true_admin_never_bypasses test_feature
             (arriving None (JsString "true") ∅ (answering true true)));
      [discriminate | reflexivity].
  - eapply (non_true_admin_never_bypasses test_feature
              (arriving (Some "fake_admin") (JsNumber 1) ∅
                 (answering true false)));
      [discriminate | reflexivity ..].
Defined.

Lemma feature_flags_merge_witness :
  ∃ new,
    __feature_flags
      (request
         (snd (canActivate test_feature_SERVICE
                 (arriving (Some "test-user") (JsBoolean false)
                    {[ "existing_flag" := true; "test_feature" := false ]}
                    (answering true true)))))
    = Some new
    ∧ new = <[ "test_feature" := true ]>
              {[ "existing_flag" := true; "test_feature" := false ]}
    ∧ new !! "test_feature" = Some true
    ∧ (∀ name, name ≠ "test_feature" →
         new !! name
         = ({[ "existing_flag" := true; "test_feature" := false ]}
              : gmap string bool) !! name).
Proof.
  refine (feature_flags_merge test_feature_SERVICE
            (arriving (Some "test-user") (JsBoolean false)
               {[ "existing_flag" := true; "test_feature" := false ]}
               (answering true true))
            "test-user" "test_feature"
            (Some {| feature_enabled := true; feature_userIds := None |}) true
            (answering true true) (answering true true) _ _ _ _ _);
    [reflexivity | discriminate | reflexivity ..].
Defined.

(** C6 as stated fails at the identity gate: under SERVICE scope, a request
    without a [__user_id] (and not admin) is denied, whatever the store
    would have answered. *)
Lemma service_scope_anonymous_is_denied :
  FEATURE_FLAG_OPTIONS_KEY test_feature_SERVICE
  = Some {| scope := Some SERVICE |}
  ∧ fst (canActivate test_feature_SERVICE
           (arriving None (JsBoolean false) ∅ (answering true true)))
    = Ok false
  ∧ fst (canActivate test_feature_SERVICE
           (arriving None (JsBoolean false) ∅ (answering true true)))
    ≠ Ok true.
Proof. split; [reflexivity |]. split; [reflexivity | discriminate]. Qed.

Lemma service_scope_allows_witness :
  fst (canActivate test_feature_SERVICE
         (arriving (Some "test-user") (JsBoolean false) ∅
            (answering false false)))
  = Ok true
  ∧ (JsBoolean false ≠ JsBoolean true →
     ∃ flags,
       __feature_flags
         (request
            (snd (canActivate test_feature_SERVICE
                    (arriving (Some "test-user") (JsBoolean false) ∅
                       (answering false false)))))
       = Some flags
       ∧ flags !! "test_feature" = Some false).
Proof.
  refine (service_scope_allows test_feature_SERVICE
            (arriving (Some "test-user") (JsBoolean false) ∅
               (answering false false))
            "test-user" "test_feature"
            (Some {| feature_enabled := false; feature_userIds := None |}) false
            (answering false false) (answering false false) _ _ _ _ _);
    reflexivity.
Defined.

Lemma single_flag_resolved_and_recorded_witness :
  ∃ allowed w',
    canActivate test_feature
      (arriving (Some "test-user") (JsBoolean false) ∅ (answering false true))
    = (Ok allowed, w')
    ∧ calls w'
      = ([] ++ [Called_getFeature "test_feature";
                Called_hasFeatureFlag "test_feature" "test-user"])%list
    ∧ (∃ flags, __feature_flags (request w') = Some flags
                ∧ flags !! "test_feature" = Some false)
    ∧ (scope_is_not_SERVICE (FEATURE_FLAG_OPTIONS_KEY test_feature) = true →
       allowed = false).
Proof.
  refine (single_flag_resolved_and_recorded test_feature
            (arriving (Some "test-user") (JsBoolean false) ∅
               (answering false true))
            "test-user" "test_feature"
            (Some {| feature_enabled := false; feature_userIds := None |}) true
            (answering false true) (answering false true) _ _ _ _ _);
    [reflexivity | discriminate | reflexivity ..].
Defined.

(** ** A list of flag names handed to the guard *)

(** An array of two names as the metadata value. The decorator's signature
    takes a string, so an array gets there only past the type checker, as in
    the test suites. Both flags are enabled for the user, so the conjunction of the per-flag values is [true]; the guard
    asks the store about the single name ["A,B"], denies, and records an
    entry for ["A,B"] only: neither ["A"] nor ["B"] gets one. *)
Lemma flag_list_is_resolved_as_one_name :
  fst (hasFeatureFlag "A" "u1" store_A_B) = Ok true
  ∧ fst (hasFeatureFlag "B" "u1" store_A_B) = Ok true
  ∧ fst (canActivate flags_A_B u1_at_store_A_B) = Ok false
  ∧ calls (snd (canActivate flags_A_B u1_at_store_A_B))
    = [Called_getFeature "A,B"; Called_hasFeatureFlag "A,B" "u1"]
  ∧ __feature_flags (request (snd (canActivate flags_A_B u1_at_store_A_B)))
    = Some {[ "A,B" := false ]}
  ∧ ({[ "A,B" := false ]} : gmap string bool) !! "A" = None
  ∧ ({[ "A,B" := false ]} : gmap string bool) !! "B" = None.
Proof. split_and!; vm_compute; reflexivity. Qed.

(** ** Two flags on one handler *)

(** C5. The code at a handler that lists two flags, by two stacked
    decorators. The claim wants every listed name resolved, an entry for
    each, and under CONTROLLER scope the conjunction of the entries as the
    decision: here ["feedback_system"] is disabled, so a denial. The code
    keeps the flag of the outer decorator only and registers the guard
    twice: both runs of the guard resolve ["beta_access"] and return [true],
    the store is never asked about ["feedback_system"], and the request ends
    with an entry for ["beta_access"] alone. *)
Theorem stacked_flags_fail_open :
  Decorator.guards submitFeedback
  = [Decorator.FeatureGuard_class; Decorator.FeatureGuard_class]
  ∧ FEATURE_FLAG_KEY (Decorator.metadata submitFeedback)
    = FlagName "beta_access"
  ∧ fst (hasFeatureFlag "beta_access" "u1" store_beta_access_only) = Ok true
  ∧ fst (hasFeatureFlag "feedback_system" "u1" store_beta_access_only)
    = Ok false
  ∧ fst (canActivate (Decorator.metadata submitFeedback)
           u1_at_store_beta_access_only)
    = Ok true
  ∧ fst (canActivate (Decorator.metadata submitFeedback)
           (snd (canActivate (Decorator.metadata submitFeedback)
                   u1_at_store_beta_access_only)))
    = Ok true
  ∧ calls
      (snd (canActivate (Decorator.metadata submitFeedback)
              (snd (canActivate (Decorator.metadata submitFeedback)
                      u1_at_store_beta_access_only))))
    = [Called_getFeature "beta_access";
       Called_hasFeatureFlag "beta_access" "u1";
       Called_getFeature "beta_access";
       Called_hasFeatureFlag "beta_access" "u1"]
  ∧ __feature_flags
      (request
         (snd (canActivate (Decorator.metadata submitFeedback)
                 (snd (canActivate (Decorator.metadata submitFeedback)
                         u1_at_store_beta_access_only)))))
    = Some {[ "beta_access" := true ]}
  ∧ ({[ "beta_access" := true ]} : gmap string bool) !! "feedback_system"
    = None.
Proof. split_and!; vm_compute; reflexivity. Qed.

End FeatureGuardFacts.

(** * Further properties of the store *)

Module StoreLaws.
Import RedisFeatureFlagCache Vocabulary RedisFeatureFlagCacheFacts.

(** ** Strings *)

Lemma string_app_cons (c : Ascii.ascii) (a b : string) :
  String c a +:+ b = String c (a +:+ b).
Proof. reflexivity. Qed.

Lemma string_app_assoc (a b c : string) :
  (a +:+ b) +:+ c = a +:+ (b +:+ c).
Proof.
  induction a as [| x a IH]; [done |].
  by rewrite !string_app_cons, IH.
Qed.

Lemma string_length_app (a b : string) :
  String.length (a +:+ b) = String.length a + String.length b.
Proof.
  induction a as [| x a IH]; [done |].
  rewrite string_app_cons. simpl. by rewrite IH.
Qed.

Lemma string_app_inj_r (a b c : string) :
  a +:+ c = b +:+ c → a = b.
Proof.
  revert b. induction a as [| x a IH]; intros [| y b] E.
  - done.
  - apply (f_equal String.length) in E.
    rewrite !string_length_app in E. simpl in E. lia.
  - apply (f_equal String.length) in E.
    rewrite !string_length_app in E. simpl in E. lia.
  - rewrite !string_app_cons in E. injection E as -> E.
    by rewrite (IH b E).
Qed.

(** ** The keys of a flag *)

Lemma featureInfoKey_inj (prefix f g : string) :
  featureInfoKey prefix f = featureInfoKey prefix g → f = g.
Proof.
  unfold featureInfoKey. intros E.
  apply (inj (String.app prefix)), (inj (String.app ":")) in E.
  by apply string_app_inj_r in E.
Qed.

Lemma featureUsersKey_inj (prefix f g : string) :
  featureUsersKey prefix f = featureUsersKey prefix g → f = g.
Proof.
  unfold featureUsersKey. intros E.
  apply (inj (String.app prefix)), (inj (String.app ":")) in E.
  by apply string_app_inj_r in E.
Qed.

(** X1. Under one prefix, the four keys of two flags are pairwise distinct
    unless they are the same key of the same flag: the info keys of two
    flags coincide only for the same flag, so do the users keys, and an info
    key is never a users key. *)
Theorem keys_of_flags_distinct (prefix f g : string) :
  (featureInfoKey prefix f = featureInfoKey prefix g ↔ f = g)
  ∧ (featureUsersKey prefix f = featureUsersKey prefix g ↔ f = g)
  ∧ featureInfoKey prefix f ≠ featureUsersKey prefix g.
Proof.
  split_and!.
  - split; [apply featureInfoKey_inj | by intros ->].
  - split; [apply featureUsersKey_inj | by intros ->].
  - apply info_users_keys_differ.
Qed.

(** X2. The boundary between prefix and flag is not marked in a key: the
    flag [g] under the prefix [p:f] has the keys of the flag [f:g] under the
    prefix [p]. So every method of a store with prefix [p:f] on the flag [g]
    runs as the same method of a store with prefix [p] on the flag [f:g]. *)
Theorem prefix_boundary_is_ambiguous
    (p f g u : string) (e : bool) (ids : option (list string))
    (db : gmap string Redis.value) :
  featureInfoKey (p +:+ ":" +:+ f) g = featureInfoKey p (f +:+ ":" +:+ g)
  ∧ featureUsersKey (p +:+ ":" +:+ f) g = featureUsersKey p (f +:+ ":" +:+ g)
  ∧ getFeature (p +:+ ":" +:+ f) g db = getFeature p (f +:+ ":" +:+ g) db
  ∧ hasFeatureFlag (p +:+ ":" +:+ f) g u db
    = hasFeatureFlag p (f +:+ ":" +:+ g) u db
  ∧ setFeatureFlag (p +:+ ":" +:+ f)
      {| flag := g; enabled := e; userIds := ids |} db
    = setFeatureFlag p
        {| flag := f +:+ ":" +:+ g; enabled := e; userIds := ids |} db.
Proof.
  assert (Hi : featureInfoKey (p +:+ ":" +:+ f) g
               = featureInfoKey p (f +:+ ":" +:+ g)).
  { unfold featureInfoKey. by rewrite !string_app_assoc. }
  assert (Hu : featureUsersKey (p +:+ ":" +:+ f) g
               = featureUsersKey p (f +:+ ":" +:+ g)).
  { unfold featureUsersKey. by rewrite !string_app_assoc. }
  split_and!; try done.
  - unfold getFeature. by rewrite Hi, Hu.
  - unfold hasFeatureFlag. by rewrite Hi, Hu.
  - unfold setFeatureFlag. cbn [flag enabled userIds]. by rewrite Hi, Hu.
Qed.

(** ** Reads *)

Lemma getFeature_keeps_database prefix f db :
  snd (getFeature prefix f db) = db.
Proof.
  unfold getFeature, and_then, resolve.
  destruct (Redis.hgetall _ db) as [[info | e] db0] eqn:Hi;
    pose proof (hgetall_pure _ _ _ _ Hi) as ->; [| done].
  destruct (info !! "enabled") as [v |]; [| done].
  by destruct (Redis.smembers _ db) as [[us | e] db1] eqn:Hs;
    pose proof (smembers_pure _ _ _ _ Hs) as ->.
Qed.

Lemma hasFeatureFlag_keeps_database prefix f u db :
  snd (hasFeatureFlag prefix f u db) = db.
Proof.
  unfold hasFeatureFlag, and_then, resolve.
  destruct (Redis.hgetall _ db) as [[info | e] db0] eqn:Hi;
    pose proof (hgetall_pure _ _ _ _ Hi) as ->; [| done].
  destruct (info !! "enabled") as [v |]; [| done].
  destruct (bool_decide (v = "true")); simpl; [| done].
  destruct (Redis.smembers _ db) as [[us | e] db1] eqn:Hs;
    pose proof (smembers_pure _ _ _ _ Hs) as ->; [| done].
  by destruct (bool_decide (0 < length us)).
Qed.

(** X4. [getFeature] and [hasFeatureFlag] never change the database,
    whether they answer or reject. *)
Theorem reads_leave_database (prefix f u : string)
    (db : gmap string Redis.value) :
  snd (getFeature prefix f db) = db
  ∧ snd (hasFeatureFlag prefix f u db) = db.
Proof.
  split; [apply getFeature_keeps_database | apply hasFeatureFlag_keeps_database].
Qed.

(** What the two reads answer depends on the two keys of the flag only. *)
Lemma reads_depend_on_two_keys prefix f u
    (db db' : gmap string Redis.value) :
  db' !! featureInfoKey prefix f = db !! featureInfoKey prefix f →
  db' !! featureUsersKey prefix f = db !! featureUsersKey prefix f →
  fst (getFeature prefix f db') = fst (getFeature prefix f db)
  ∧ fst (hasFeatureFlag prefix f u db') = fst (hasFeatureFlag prefix f u db).
Proof.
  intros Hi Hu.
  unfold getFeature, hasFeatureFlag, and_then, resolve.
  unfold Redis.hgetall, Redis.smembers. rewrite Hi.
  destruct (db !! featureInfoKey prefix f) as [[info | s] |]; simpl;
    try done;
    (destruct (_ !! "enabled") as [v |]; simpl; [| done]);
    rewrite ?Hu; destruct (bool_decide (v = "true")); simpl; rewrite ?Hu;
    destruct (db !! featureUsersKey prefix f) as [[h | s'] |]; simpl;
    split; try done; by destruct (bool_decide (0 < length _)).
Qed.

(** X5. With a user set that cannot be read (the users key holds a hash),
    [getFeature] rejects as soon as the marker is present, whereas
    [hasFeatureFlag] rejects only when the flag is enabled: for a disabled
    flag it answers [false] without reading the set. *)
Theorem reads_with_unreadable_user_set
    (prefix f u v : string) (db : gmap string Redis.value)
    (info h : gmap string string) :
  Redis.hgetall (featureInfoKey prefix f) db = (Ok info, db) →
  info !! "enabled" = Some v →
  db !! featureUsersKey prefix f = Some (Redis.Hash h) →
  getFeature prefix f db = (Err WRONGTYPE, db)
  ∧ hasFeatureFlag prefix f u db
    = (if bool_decide (v = "true") then (Err WRONGTYPE, db)
       else (Ok false, db)).
Proof.
  intros Hinfo Hv Hu.
  rewrite (getFeature_unfold _ _ _ _ Hinfo).
  rewrite (hasFeatureFlag_unfold _ _ _ _ _ Hinfo), Hv.
  unfold Redis.smembers. rewrite Hu. by destruct (bool_decide _).
Qed.

Lemma reads_with_unreadable_user_set_witness :
  getFeature "crudmates:feature-guard" "gamma" db_wrong_kinds
  = (Err WRONGTYPE, db_wrong_kinds)
  ∧ hasFeatureFlag "crudmates:feature-guard" "gamma" "u1" db_wrong_kinds
    = (Ok false, db_wrong_kinds).
Proof.
  refine (reads_with_unreadable_user_set
            "crudmates:feature-guard" "gamma" "u1" "false" db_wrong_kinds
            {[ "enabled" := "false" ]} {[ "y" := "z" ]} _ _ _);
    vm_compute; reflexivity.
Defined.

(** ** [setFeatureFlag] *)


(** X7. A successful [setFeatureFlag] touches the two keys of its flag only,
    and in the info hash it touches the marker only: every other key of the
    database and every other field of the hash is what it was. *)
Theorem setFeatureFlag_frame
    (prefix : string) (o : SetFeatureFlagOptions)
    (db db1 : gmap string Redis.value) :
  setFeatureFlag prefix o db = (Ok tt, db1) →
  (∀ k, k ≠ featureInfoKey prefix (flag o) →
        k ≠ featureUsersKey prefix (flag o) →
        db1 !! k = db !! k)
  ∧ (∃ info info1,
       Redis.hgetall (featureInfoKey prefix (flag o)) db = (Ok info, db)
       ∧ Redis.hgetall (featureInfoKey prefix (flag o)) db1 = (Ok info1, db1)
       ∧ ∀ field, field ≠ "enabled" → info1 !! field = info !! field).
Proof.
  intros Hset.
  destruct (setFeatureFlag_succeeds_inv _ _ _ _ Hset) as (info & Hinfo & ->).
  split.
  - intros k Hki Hku. rewrite written_lookup.
    by rewrite !decide_False by done.
  - exists info, (<[ "enabled" := enabled_marker o ]> info).
    split_and!; [done | apply written_info |].
    intros field Hf. by rewrite lookup_insert_ne.
Qed.

Lemma setFeatureFlag_frame_witness :
  ∃ db1,
    setFeatureFlag "crudmates:feature-guard"
      {| flag := "gamma"; enabled := true; userIds := None |} db_beta
    = (Ok tt, db1)
    ∧ db1 !! featureUsersKey "crudmates:feature-guard" "beta"
      = db_beta !! featureUsersKey "crudmates:feature-guard" "beta".
Proof.
  assert (Hset : setFeatureFlag "crudmates:feature-guard"
                   {| flag := "gamma"; enabled := true; userIds := None |}
                   db_beta
                 = (Ok tt, written "crudmates:feature-guard"
                             {| flag := "gamma"; enabled := true;
                                userIds := None |} ∅ db_beta)).
  { apply setFeatureFlag_written. vm_compute. reflexivity. }
  eexists. split; [exact Hset |].
  apply (setFeatureFlag_frame _ _ _ _ Hset).
  - intros E. symmetry in E. by apply info_users_keys_differ in E.
  - intros E. by apply featureUsersKey_inj in E.
Defined.

(** X8. A successful [setFeatureFlag] for one flag changes what neither
    read answers for any other flag of the same store. *)
Theorem setFeatureFlag_leaves_other_flags
    (prefix g u : string) (o : SetFeatureFlagOptions)
    (db db1 : gmap string Redis.value) :
  setFeatureFlag prefix o db = (Ok tt, db1) →
  g ≠ flag o →
  fst (getFeature prefix g db1) = fst (getFeature prefix g db)
  ∧ fst (hasFeatureFlag prefix g u db1) = fst (hasFeatureFlag prefix g u db).
Proof.
  intros Hset Hg.
  destruct (setFeatureFlag_succeeds_inv _ _ _ _ Hset) as (info & Hinfo & ->).
  apply reads_depend_on_two_keys; rewrite written_lookup.
  - rewrite decide_False by apply info_users_keys_differ.
    rewrite decide_False; [done |].
    intros E. by apply featureInfoKey_inj in E.
  - rewrite decide_False; [| intros E; by apply featureUsersKey_inj in E].
    rewrite decide_False; [done |].
    intros E. by apply (info_users_keys_differ prefix (flag o) g).
Qed.

Lemma setFeatureFlag_leaves_other_flags_witness :
  fst (hasFeatureFlag "crudmates:feature-guard" "beta" "u1"
         (written "crudmates:feature-guard"
            {| flag := "gamma"; enabled := false; userIds := None |}
            ∅ db_beta))
  = fst (hasFeatureFlag "crudmates:feature-guard" "beta" "u1" db_beta).
Proof.
  eapply (setFeatureFlag_leaves_other_flags
            "crudmates:feature-guard" "beta" "u1"
            {| flag := "gamma"; enabled := false; userIds := None |} db_beta).
  - apply setFeatureFlag_written. vm_compute. reflexivity.
  - discriminate.
Defined.

Lemma marker_is_true (o : SetFeatureFlagOptions) :
  bool_decide (enabled_marker o = "true") = enabled o.
Proof. unfold enabled_marker. by destruct (enabled o). Qed.

(** X9. Write, then ask. After a successful [setFeatureFlag], asking
    [hasFeatureFlag] for the same flag answers [true] exactly when the flag
    was written enabled and either no user was given (absent or empty list)
    or the user is in the given list. *)
Theorem hasFeatureFlag_after_setFeatureFlag
    (prefix u : string) (o : SetFeatureFlagOptions)
    (db db1 : gmap string Redis.value) :
  setFeatureFlag prefix o db = (Ok tt, db1) →
  hasFeatureFlag prefix (flag o) u db1
  = (Ok (enabled o
         && match userIds o with
            | Some ((_ :: _) as ids) => bool_decide (u ∈ ids)
            | _ => true
            end),
     db1).
Proof.
  intros Hset.
  destruct (setFeatureFlag_succeeds_inv _ _ _ _ Hset) as (info & Hinfo & ->).
  rewrite (hasFeatureFlag_unfold _ _ _ _ _ (written_info _ _ _ _)).
  rewrite lookup_insert_eq, marker_is_true.
  destruct (enabled o); [| done].
  unfold Redis.smembers. rewrite written_lookup, decide_True by done.
  unfold users_entry.
  destruct (userIds o) as [[| x ids] |]; try done.
  rewrite has_members_elements, includes_elements.
  rewrite (bool_decide_eq_true_2 (_ ≠ ∅))
    by (apply (non_empty_inhabited_L x), elem_of_list_to_set; constructor).
  cbn [andb]. do 2 f_equal. apply bool_decide_ext, elem_of_list_to_set.
Qed.

Lemma hasFeatureFlag_after_setFeatureFlag_witness :
  hasFeatureFlag "crudmates:feature-guard" "beta" "u2"
    (written "crudmates:feature-guard"
       {| flag := "beta"; enabled := true; userIds := Some ["u1"; "u2"] |}
       ∅ ∅)
  = (Ok (true && bool_decide ("u2" ∈ ["u1"; "u2"])),
     written "crudmates:feature-guard"
       {| flag := "beta"; enabled := true; userIds := Some ["u1"; "u2"] |}
       ∅ ∅).
Proof.
  apply (hasFeatureFlag_after_setFeatureFlag
           "crudmates:feature-guard" "u2"
           {| flag := "beta"; enabled := true; userIds := Some ["u1"; "u2"] |}
           ∅).
  apply setFeatureFlag_written. reflexivity.
Defined.

(** X10. Write, then read back. After a successful [setFeatureFlag],
    [getFeature] for the same flag returns a record with the written
    [enabled]; its [userIds] is absent when no user was given, and otherwise
    lists exactly the given users, each once. *)
Theorem getFeature_after_setFeatureFlag
    (prefix : string) (o : SetFeatureFlagOptions)
    (db db1 : gmap string Redis.value) :
  setFeatureFlag prefix o db = (Ok tt, db1) →
  ∃ record,
    getFeature prefix (flag o) db1 = (Ok (Some record), db1)
    ∧ feature_enabled record = enabled o
    ∧ match userIds o with
      | Some ((_ :: _) as ids) =>
          ∃ back, feature_userIds record = Some back
                  ∧ NoDup back ∧ ∀ x, x ∈ back ↔ x ∈ ids
      | _ => feature_userIds record = None
      end.
Proof.
  intros Hset.
  destruct (setFeatureFlag_succeeds_inv _ _ _ _ Hset) as (info & Hinfo & ->).
  rewrite (getFeature_unfold _ _ _ _ (written_info _ _ _ _)).
  rewrite lookup_insert_eq, marker_is_true.
  unfold Redis.smembers. rewrite written_lookup, decide_True by done.
  unfold users_entry.
  destruct (userIds o) as [[| x ids] |]; try (by eexists).
  eexists. split_and!; [reflexivity | reflexivity |]. cbn [feature_userIds].
  rewrite has_members_elements.
  rewrite (bool_decide_eq_true_2 (_ ≠ ∅))
    by (apply (non_empty_inhabited_L x), elem_of_list_to_set; constructor).
  eexists. split_and!; [reflexivity | apply NoDup_elements |].
  intros y. by rewrite elem_of_elements, elem_of_list_to_set.
Qed.

Lemma getFeature_after_setFeatureFlag_witness :
  ∃ record,
    getFeature "crudmates:feature-guard" "beta"
      (written "crudmates:feature-guard"
         {| flag := "beta"; enabled := false; userIds := Some [] |} ∅ ∅)
    = (Ok (Some record),
       written "crudmates:feature-guard"
         {| flag := "beta"; enabled := false; userIds := Some [] |} ∅ ∅)
    ∧ feature_enabled record = false
    ∧ feature_userIds record = None.
Proof.
  refine (getFeature_after_setFeatureFlag
            "crudmates:feature-guard"
            {| flag := "beta"; enabled := false; userIds := Some [] |}
            ∅ _ _).
  apply setFeatureFlag_written. reflexivity.
Defined.

(** X11. Neither the order nor the repetitions of [userIds] matter, and an
    empty list is the same as no list: two calls whose lists have the same
    members do the same thing to every database. *)
Theorem setFeatureFlag_ignores_order_and_duplicates
    (prefix f : string) (e : bool) (ids ids' : list string)
    (db : gmap string Redis.value) :
  (∀ x, x ∈ ids ↔ x ∈ ids') →
  setFeatureFlag prefix {| flag := f; enabled := e; userIds := Some ids |} db
  = setFeatureFlag prefix
      {| flag := f; enabled := e; userIds := Some ids' |} db
  ∧ setFeatureFlag prefix {| flag := f; enabled := e; userIds := Some [] |} db
    = setFeatureFlag prefix {| flag := f; enabled := e; userIds := None |} db.
Proof.
  intros Hsame. split; [| done].
  assert (Hset : (list_to_set ids : gset string) = list_to_set ids').
  { apply set_eq. intros x. rewrite !elem_of_list_to_set. apply Hsame. }
  unfold setFeatureFlag, and_then. cbn [flag enabled userIds].
  destruct (Redis.hmset _ _ db) as [[ok | err] db1]; [| done].
  destruct ids as [| x ids], ids' as [| y ids'].
  - done.
  - exfalso. apply (not_elem_of_nil y), Hsame. constructor.
  - exfalso. apply (not_elem_of_nil x), Hsame. constructor.
  - unfold Redis.del.
    rewrite !sadd_batches_fresh by (done || apply lookup_delete_eq).
    by rewrite Hset.
Qed.

Lemma setFeatureFlag_ignores_order_and_duplicates_witness :
  setFeatureFlag "crudmates:feature-guard"
    {| flag := "beta"; enabled := true;
       userIds := Some ["u1"; "u2"; "u1"] |} ∅
  = setFeatureFlag "crudmates:feature-guard"
      {| flag := "beta"; enabled := true; userIds := Some ["u2"; "u1"] |} ∅.
Proof.
  apply (setFeatureFlag_ignores_order_and_duplicates
           "crudmates:feature-guard" "beta" true
           ["u1"; "u2"; "u1"] ["u2"; "u1"] ∅).
  intros x. rewrite !elem_of_cons, !elem_of_nil. tauto.
Defined.

(** ** The batching loop *)

(** From index [i] on, the loop leaves under the key a set. *)
Lemma sadd_batches_from_absent key ids i db :
  db !! key = None → i < length ids →
  sadd_batches key ids i db
  = (Ok tt, <[key := Redis.SetOf (list_to_set (drop i ids))]> db).
Proof.
  intros Hkey Hi.
  rewrite sadd_batches_equation_1.
  destruct (decide (i < length ids)) as [Hlt | ?]; [| done]. simpl.
  rewrite slice_batch.
  rewrite sadd_fresh by auto using batch_nonempty. simpl.
  erewrite sadd_batches_on_set by (by rewrite lookup_insert_eq).
  rewrite insert_insert_eq. do 3 f_equal.
  apply batch_union.
Qed.

(** X12. Whatever the length of the list, the loop that adds the users in
    batches of 1000 adds every identifier from its start index on to the set
    under the key (creating the set when the key is missing): no identifier
    is dropped at a batch boundary, no batch is empty, and the loop does not
    reject. *)
Theorem sadd_batches_adds_all
    (key : string) (ids : list string) (i : nat)
    (db : gmap string Redis.value) :
  (∀ h, db !! key ≠ Some (Redis.Hash h)) →
  i < length ids →
  sadd_batches key ids i db
  = (Ok tt,
     <[key := Redis.SetOf (set_at db key ∪ list_to_set (drop i ids))]> db).
Proof.
  intros Hkind Hi. unfold set_at.
  destruct (db !! key) as [[h | s] |] eqn:Hk.
  - by destruct (Hkind h).
  - by apply sadd_batches_on_set.
  - rewrite (left_id_L ∅ (∪)). by apply sadd_batches_from_absent.
Qed.

Lemma sadd_batches_adds_all_witness :
  sadd_batches "k" ["a"; "b"; "c"] 1 ∅
  = (Ok tt,
     <["k" := Redis.SetOf (set_at ∅ "k" ∪ list_to_set (drop 1 ["a"; "b"; "c"]))]>
       ∅).
Proof.
  apply (sadd_batches_adds_all "k" ["a"; "b"; "c"] 1 ∅).
  - intros h. rewrite lookup_empty. discriminate.
  - simpl. lia.
Defined.

(** ** Two stores on one database *)

Lemma string_app_eq_prefix (a b x y : string) :
  a +:+ x = b +:+ y → (∃ c, a = b +:+ c) ∨ (∃ c, b = a +:+ c).
Proof.
  revert b. induction a as [| ca a IH]; intros [| cb b] E.
  - left. by exists "".
  - right. by exists (String cb b).
  - left. by exists (String ca a).
  - rewrite !string_app_cons in E. injection E as -> E.
    destruct (IH b E) as [[c ->] | [c ->]]; [left | right]; by exists c.
Qed.

(** X3. Two stores on the same database are isolated from each other as
    soon as neither prefix begins with the other: writing a flag through
    one changes what neither read of the other answers, for any flag. *)
Theorem stores_with_unrelated_prefixes_are_isolated
    (p q g u : string) (o : SetFeatureFlagOptions)
    (db db1 : gmap string Redis.value) :
  (∀ c, p ≠ q +:+ c) → (∀ c, q ≠ p +:+ c) →
  setFeatureFlag p o db = (Ok tt, db1) →
  fst (getFeature q g db1) = fst (getFeature q g db)
  ∧ fst (hasFeatureFlag q g u db1) = fst (hasFeatureFlag q g u db).
Proof.
  intros Hpq Hqp Hset.
  assert (Hkeys : ∀ x y, q +:+ x ≠ p +:+ y).
  { intros x y E.
    destruct (string_app_eq_prefix _ _ _ _ E) as [[c Hc] | [c Hc]].
    - by apply (Hqp c).
    - by apply (Hpq c). }
  destruct (setFeatureFlag_succeeds_inv _ _ _ _ Hset) as (info & Hinfo & ->).
  apply reads_depend_on_two_keys; rewrite written_lookup;
    rewrite !decide_False; try done; apply Hkeys.
Qed.

Lemma stores_with_unrelated_prefixes_are_isolated_witness :
  fst (hasFeatureFlag "crudmates:feature-guard" "beta" "u1"
         (written "myapp:flags"
            {| flag := "beta"; enabled := false; userIds := None |}
            ∅ db_beta))
  = fst (hasFeatureFlag "crudmates:feature-guard" "beta" "u1" db_beta).
Proof.
  eapply (stores_with_unrelated_prefixes_are_isolated
            "myapp:flags" "crudmates:feature-guard" "beta" "u1"
            {| flag := "beta"; enabled := false; userIds := None |} db_beta).
  - intros c. discriminate.
  - intros c. discriminate.
  - apply setFeatureFlag_written. vm_compute. reflexivity.
Defined.

(** ** The two reads, as the guard combines them *)

(** An answer [true] of [hasFeatureFlag] comes with an enabled record of
    [getFeature]. *)
Lemma granted_only_if_enabled prefix f u db r b db1 db2 :
  getFeature prefix f db = (Ok r, db1) →
  hasFeatureFlag prefix f u db = (Ok b, db2) →
  FeatureGuard.enabled_is_true r && b = b.
Proof.
  intros Hget Hhas.
  destruct (Redis.hgetall (featureInfoKey prefix f) db) as [[info | e] db0]
    eqn:Hinfo.
  2:{ unfold getFeature, and_then in Hget. by rewrite Hinfo in Hget. }
  pose proof (hgetall_pure _ _ _ _ Hinfo) as ->.
  rewrite (getFeature_unfold _ _ _ _ Hinfo) in Hget.
  rewrite (hasFeatureFlag_unfold _ _ _ _ _ Hinfo) in Hhas.
  destruct (info !! "enabled") as [v |].
  2:{ injection Hhas as <- _. apply andb_false_r. }
  destruct (Redis.smembers _ db) as [[us | e] db3]; [| done].
  injection Hget as <- _.
  destruct (bool_decide (v = "true")); injection Hhas as <- _.
  - done.
  - apply andb_false_r.
Qed.

End StoreLaws.

(** * Further properties of the guard *)

Module GuardLaws.
Import FeatureGuard Vocabulary FeatureGuardFacts.

Lemma isFeatureEnabled_insert (r : FeatureGuardRequest)
    (flags : gmap string bool) (key name : string) (value : bool) :
  __feature_flags r = Some (<[key := value]> flags) →
  isFeatureEnabled r name
  = if decide (name = key) then value
    else bool_decide (flags !! name = Some true).
Proof.
  unfold isFeatureEnabled. intros ->. case_decide as Hn.
  - subst. rewrite lookup_insert_eq. by destruct value.
  - by rewrite lookup_insert_ne.
Qed.

Lemma isFeatureEnabled_default (r : FeatureGuardRequest) (name : string) :
  isFeatureEnabled r name
  = bool_decide (default ∅ (__feature_flags r) !! name = Some true).
Proof. unfold isFeatureEnabled. by destruct (__feature_flags r). Qed.

Section WithStore.
Context {St : Type} `{FeatureGuardStore St}.

(** ** What the guard does when the store rejects *)

(** X13. A rejection of the store is the rejection of the guard, under any
    scope, and the request is not written: when [getFeature] rejects,
    [hasFeatureFlag] is not called; when [hasFeatureFlag] rejects after
    [getFeature] answered, nothing of that answer is recorded. *)
Theorem store_rejection_rejects_the_run
    (handler : HandlerMetadata) (w : World St) (u key : string) :
  __user_id (request w) = Some u →
  __is_admin (request w) ≠ JsBoolean true →
  flag_to_string (FEATURE_FLAG_KEY handler) = Some key →
  (∀ e st1,
     getFeature key (store w) = (Err e, st1) →
     canActivate handler w
     = (Err e, {| request := request w; store := st1;
                  calls := calls w ++ [Called_getFeature key] |}))
  ∧ (∀ feature e st1 st2,
       getFeature key (store w) = (Ok feature, st1) →
       hasFeatureFlag key u st1 = (Err e, st2) →
       canActivate handler w
       = (Err e, {| request := request w; store := st2;
                    calls := calls w ++ [Called_getFeature key;
                                         Called_hasFeatureFlag key u] |})).
Proof.
  intros Hu Hadmin Hkey. split.
  - intros e st1 Hget.
    exact (canActivate_getFeature_rejects handler w u key e st1
             Hu Hadmin Hkey Hget).
  - intros feature e st1 st2 Hget Hhas.
    exact (canActivate_hasFeatureFlag_rejects handler w u key feature e
             st1 st2 Hu Hadmin Hkey Hget Hhas).
Qed.

(** ** A handler without flag *)

(** X14. When the handler carries no flag (the metadata is [undefined] or
    [null]), the guard denies everyone but an admin, under any scope and
    without calling the store or writing the request. *)
Theorem no_flag_is_denied (handler : HandlerMetadata) (w : World St) :
  FEATURE_FLAG_KEY handler = FlagUndefined
  ∨ FEATURE_FLAG_KEY handler = FlagNull →
  canActivate handler w
  = (Ok (strictly_true (__is_admin (request w))), w).
Proof.
  intros Hflag.
  assert (Hkey : flag_to_string (FEATURE_FLAG_KEY handler) = None)
    by (by destruct Hflag as [-> | ->]).
  destruct (decide (__is_admin (request w) = JsBoolean true)) as [Ha | Ha].
  - rewrite (canActivate_admin _ _ Ha). by rewrite Ha.
  - rewrite (canActivate_no_flag _ _ Hkey Ha).
    by rewrite (not_strictly_true _ Ha).
Qed.

(** ** The guard and [isFeatureEnabled] *)

(** X15. After a run that resolved a flag, [isFeatureEnabled] on the request
    answers the recorded result for that flag, namely [true] exactly when
    the record is enabled and the store grants the flag to the user, and for
    every other name what it answered before the run. Under CONTROLLER scope
    the decision of the guard is that answer. *)
Theorem isFeatureEnabled_after_run
    (handler : HandlerMetadata) (w : World St)
    (u key : string) (feature : option Feature) (hasFlag : bool)
    (st1 st2 : St) :
  __user_id (request w) = Some u →
  __is_admin (request w) ≠ JsBoolean true →
  flag_to_string (FEATURE_FLAG_KEY handler) = Some key →
  getFeature key (store w) = (Ok feature, st1) →
  hasFeatureFlag key u st1 = (Ok hasFlag, st2) →
  isFeatureEnabled (request (snd (canActivate handler w))) key
  = enabled_is_true feature && hasFlag
  ∧ (∀ name, name ≠ key →
       isFeatureEnabled (request (snd (canActivate handler w))) name
       = isFeatureEnabled (request w) name)
  ∧ (scope_is_not_SERVICE (FEATURE_FLAG_OPTIONS_KEY handler) = true →
     fst (canActivate handler w)
     = Ok (isFeatureEnabled (request (snd (canActivate handler w))) key)).
Proof.
  intros Hu Hadmin Hkey Hget Hhas.
  rewrite (canActivate_resolves _ _ _ _ _ _ _ _ Hu Hadmin Hkey Hget Hhas).
  cbn [fst snd]. split_and!.
  - erewrite isFeatureEnabled_insert by reflexivity. by rewrite decide_True.
  - intros name Hname.
    erewrite isFeatureEnabled_insert by reflexivity.
    rewrite decide_False by done. by rewrite isFeatureEnabled_default.
  - intros ->. erewrite isFeatureEnabled_insert by reflexivity.
    by rewrite decide_True.
Qed.

(** X16. The admin bypass and the denial of a request without identity
    record nothing: after such a run [isFeatureEnabled] answers for every
    name what it answered before, so [false] on a request that came with no
    flags. An admin passes the guard without the flag being reported as
    enabled. *)
Theorem gate_records_nothing
    (handler : HandlerMetadata) (w : World St) (name : string) :
  __is_admin (request w) = JsBoolean true
  ∨ __user_id (request w) = None →
  isFeatureEnabled (request (snd (canActivate handler w))) name
  = isFeatureEnabled (request w) name
  ∧ (default ∅ (__feature_flags (request w)) = ∅ →
     isFeatureEnabled (request (snd (canActivate handler w))) name = false).
Proof.
  intros Hgate.
  assert (Hw : snd (canActivate handler w) = w).
  { destruct (decide (__is_admin (request w) = JsBoolean true)) as [Ha | Ha].
    - by rewrite (canActivate_admin _ _ Ha).
    - destruct Hgate as [? | Hu]; [done |].
      by rewrite (canActivate_anonymous _ _ Hu Ha). }
  rewrite Hw. split; [done |].
  intros Hempty. by rewrite isFeatureEnabled_default, Hempty.
Qed.

(** X17. Runs on the same request accumulate: after the guard has run for
    one flag and then for another, [isFeatureEnabled] answers the result of
    the second run for its flag and, when the two names differ, still the
    result of the first run for the first flag; the store has been asked
    four times, in order. *)
Theorem runs_accumulate
    (h1 h2 : HandlerMetadata) (w : World St) (u k1 k2 : string)
    (f1 f2 : option Feature) (g1 g2 : bool) (st1 st2 st3 st4 : St) :
  __user_id (request w) = Some u →
  __is_admin (request w) ≠ JsBoolean true →
  flag_to_string (FEATURE_FLAG_KEY h1) = Some k1 →
  flag_to_string (FEATURE_FLAG_KEY h2) = Some k2 →
  getFeature k1 (store w) = (Ok f1, st1) →
  hasFeatureFlag k1 u st1 = (Ok g1, st2) →
  getFeature k2 st2 = (Ok f2, st3) →
  hasFeatureFlag k2 u st3 = (Ok g2, st4) →
  let w1 := snd (canActivate h1 w) in
  let w2 := snd (canActivate h2 w1) in
  isFeatureEnabled (request w2) k2 = enabled_is_true f2 && g2
  ∧ (k1 ≠ k2 → isFeatureEnabled (request w2) k1 = enabled_is_true f1 && g1)
  ∧ calls w2
    = (calls w ++ [Called_getFeature k1; Called_hasFeatureFlag k1 u;
                   Called_getFeature k2; Called_hasFeatureFlag k2 u])%list.
Proof.
  intros Hu Hadmin Hk1 Hk2 Hget1 Hhas1 Hget2 Hhas2 w1 w2. subst w2 w1.
  rewrite (canActivate_resolves _ _ _ _ _ _ _ _ Hu Hadmin Hk1 Hget1 Hhas1).
  cbn [snd].
  rewrite (canActivate_resolves h2 (resolved w k1 u _ st2) u k2 f2 g2 st3 st4
             Hu Hadmin Hk2 Hget2 Hhas2).
  cbn [snd]. split_and!.
  - erewrite isFeatureEnabled_insert by reflexivity. by rewrite decide_True.
  - intros Hne. erewrite isFeatureEnabled_insert by reflexivity.
    rewrite decide_False by done. unfold resolved.
    cbn [default from_option id request __feature_flags].
    rewrite lookup_insert_eq. by destruct (enabled_is_true f1 && g1).
  - unfold resolved. cbn [calls]. by rewrite <- (assoc_L (++)).
Qed.

(** ** Scope and shape of the metadata *)

(** X18. CONTROLLER is the default scope: a handler without options, one
    whose options carry no scope and one with the CONTROLLER scope run
    alike. *)
Theorem scope_defaults_to_CONTROLLER (flag : FlagMetadata) (w : World St) :
  canActivate {| FEATURE_FLAG_KEY := flag;
                 FEATURE_FLAG_OPTIONS_KEY := Some {| scope := None |} |} w
  = canActivate {| FEATURE_FLAG_KEY := flag;
                   FEATURE_FLAG_OPTIONS_KEY := None |} w
  ∧ canActivate
      {| FEATURE_FLAG_KEY := flag;
         FEATURE_FLAG_OPTIONS_KEY := Some {| scope := Some CONTROLLER |} |} w
    = canActivate {| FEATURE_FLAG_KEY := flag;
                     FEATURE_FLAG_OPTIONS_KEY := None |} w.
Proof. split; reflexivity. Qed.

(** A flag handed over as an array with one name runs as that name handed
    over as a string. *)
Lemma one_name_array_is_the_name
    (name : string) (options : option FeatureFlagOptions) (w : World St) :
  canActivate {| FEATURE_FLAG_KEY := FlagNames [name];
                 FEATURE_FLAG_OPTIONS_KEY := options |} w
  = canActivate {| FEATURE_FLAG_KEY := FlagName name;
                   FEATURE_FLAG_OPTIONS_KEY := options |} w.
Proof. reflexivity. Qed.

End WithStore.

(** ** Runs on concrete requests *)

Lemma store_rejection_rejects_the_run_witness :
  canActivate test_feature_SERVICE
    (arriving (Some "test-user") (JsBoolean false) ∅ unreachable)
  = (Err (StoreFailure "ECONNREFUSED"),
     {| request :=
          request (arriving (Some "test-user") (JsBoolean false) ∅
                     unreachable);
        store := unreachable;
        calls := [] ++ [Called_getFeature "test_feature"] |}).
Proof.
  apply (store_rejection_rejects_the_run test_feature_SERVICE
           (arriving (Some "test-user") (JsBoolean false) ∅ unreachable)
           "test-user" "test_feature");
    [reflexivity | discriminate | reflexivity ..].
Defined.

Lemma no_flag_is_denied_witness :
  canActivate
    {| FEATURE_FLAG_KEY := FlagUndefined;
       FEATURE_FLAG_OPTIONS_KEY := Some {| scope := Some SERVICE |} |}
    (arriving (Some "test-user") (JsBoolean false) ∅ (answering true true))
  = (Ok false,
     arriving (Some "test-user") (JsBoolean false) ∅ (answering true true)).
Proof.
  refine (no_flag_is_denied
            {| FEATURE_FLAG_KEY := FlagUndefined;
               FEATURE_FLAG_OPTIONS_KEY := Some {| scope := Some SERVICE |} |}
            (arriving (Some "test-user") (JsBoolean false) ∅
               (answering true true)) _).
  by left.
Defined.

Lemma isFeatureEnabled_after_run_witness :
  isFeatureEnabled
    (request
       (snd (canActivate test_feature_SERVICE
               (arriving (Some "test-user") (JsBoolean false)
                  {[ "existing_flag" := true ]} (answering true false)))))
    "existing_flag"
  = isFeatureEnabled
      (request
         (arriving (Some "test-user") (JsBoolean false)
            {[ "existing_flag" := true ]} (answering true false)))
      "existing_flag".
Proof.
  eapply (isFeatureEnabled_after_run test_feature_SERVICE
            (arriving (Some "test-user") (JsBoolean false)
               {[ "existing_flag" := true ]} (answering true false))
            "test-user" "test_feature");
    [reflexivity | discriminate | reflexivity .. | discriminate].
Defined.

Lemma gate_records_nothing_witness :
  fst (canActivate test_feature
         (arriving None (JsBoolean true) ∅ (answering true true)))
  = Ok true
  ∧ isFeatureEnabled
      (request
         (snd (canActivate test_feature
                 (arriving None (JsBoolean true) ∅ (answering true true)))))
      "test_feature"
    = false.
Proof.
  split; [reflexivity |].
  apply (gate_records_nothing test_feature
           (arriving None (JsBoolean true) ∅ (answering true true))
           "test_feature");
    [by left | reflexivity].
Defined.

Lemma runs_accumulate_witness :
  isFeatureEnabled
    (request
       (snd (canActivate
               {| FEATURE_FLAG_KEY := FlagName "feature2";
                  FEATURE_FLAG_OPTIONS_KEY :=
                    Some {| scope := Some SERVICE |} |}
               (snd (canActivate test_feature_SERVICE
                       (arriving (Some "test-user") (JsBoolean false) ∅
                          (answering true true))))))) "test_feature"
  = true.
Proof.
  refine (proj1 (proj2
    (runs_accumulate test_feature_SERVICE
       {| FEATURE_FLAG_KEY := FlagName "feature2";
          FEATURE_FLAG_OPTIONS_KEY := Some {| scope := Some SERVICE |} |}
       (arriving (Some "test-user") (JsBoolean false) ∅ (answering true true))
       "test-user" "test_feature" "feature2"
       (Some {| feature_enabled := true; feature_userIds := None |})
       (Some {| feature_enabled := true; feature_userIds := None |})
       true true
       (answering true true) (answering true true)
       (answering true true) (answering true true)
       _ _ _ _ _ _ _ _)) _);
    try reflexivity; discriminate.
Defined.

(** ** The guard in front of the Redis store *)

(** A store whose reads keep its state is left as it was by the guard. *)
Lemma guard_keeps_store {St : Type} `{FeatureGuardStore St}
    (handler : HandlerMetadata) (w : World St) :
  (∀ key st, snd (getFeature key st) = st) →
  (∀ key u st, snd (hasFeatureFlag key u st) = st) →
  store (snd (canActivate handler w)) = store w.
Proof.
  intros Hget Hhas. unfold canActivate, and_then, getRequest, resolve.
  destruct (_ && _); [done |].
  destruct (strictly_true _); [done |].
  destruct (flag_to_string _) as [key |]; [| done].
  unfold store_getFeature.
  pose proof (Hget key (store w)) as Hg.
  destruct (getFeature key (store w)) as [[feature | e] st1].
  2:{ by simpl in *. }
  simpl in Hg. subst st1.
  destruct (__user_id (request w)) as [u |]; simpl.
  - unfold store_hasFeatureFlag. simpl.
    pose proof (Hhas key u (store w)) as Hh.
    destruct (hasFeatureFlag key u (store w)) as [[hasFlag | e] st2];
      simpl in *; subst; [| done].
    by repeat case_match.
  - by repeat case_match.
Qed.

Lemma redis_getFeature (this : RedisFeatureFlagCache.t) (key : string) :
  getFeature key this
  = (fst (RedisFeatureFlagCache.getFeature
            (RedisFeatureFlagCache.featureKeyPrefix this) key
            (RedisFeatureFlagCache.redis this)),
     this).
Proof.
  destruct this as [db prefix]. simpl.
  unfold RedisFeatureFlagCache.on_redis. simpl.
  pose proof (StoreLaws.getFeature_keeps_database prefix key db) as Hk.
  destruct (RedisFeatureFlagCache.getFeature prefix key db) as [r db'].
  simpl in *. by subst.
Qed.

Lemma redis_hasFeatureFlag (this : RedisFeatureFlagCache.t)
    (key u : string) :
  hasFeatureFlag key u this
  = (fst (RedisFeatureFlagCache.hasFeatureFlag
            (RedisFeatureFlagCache.featureKeyPrefix this) key u
            (RedisFeatureFlagCache.redis this)),
     this).
Proof.
  destruct this as [db prefix]. simpl.
  unfold RedisFeatureFlagCache.on_redis. simpl.
  pose proof (StoreLaws.hasFeatureFlag_keeps_database prefix key u db) as Hk.
  destruct (RedisFeatureFlagCache.hasFeatureFlag prefix key u db) as [r db'].
  simpl in *. by subst.
Qed.

(** X19. The guard never writes to the Redis store: after any run, whatever
    it returned, the database and the prefix are what they were. *)
Theorem guard_leaves_redis_store
    (handler : HandlerMetadata) (w : World RedisFeatureFlagCache.t) :
  store (snd (canActivate handler w)) = store w.
Proof.
  apply guard_keeps_store.
  - intros key st. by rewrite redis_getFeature.
  - intros key u st. by rewrite redis_hasFeatureFlag.
Qed.

(** X20. In front of the Redis store, what the guard records for a flag and
    decides under CONTROLLER scope is the answer of [hasFeatureFlag] alone:
    the [enabled] of [getFeature] never turns a granted flag down. *)
Theorem guard_on_redis_follows_hasFeatureFlag
    (handler : HandlerMetadata) (w : World RedisFeatureFlagCache.t)
    (u key : string) (r : option Feature) (b : bool)
    (db1 db2 : gmap string Redis.value) :
  __user_id (request w) = Some u →
  __is_admin (request w) ≠ JsBoolean true →
  flag_to_string (FEATURE_FLAG_KEY handler) = Some key →
  RedisFeatureFlagCache.getFeature
    (RedisFeatureFlagCache.featureKeyPrefix (store w)) key
    (RedisFeatureFlagCache.redis (store w)) = (Ok r, db1) →
  RedisFeatureFlagCache.hasFeatureFlag
    (RedisFeatureFlagCache.featureKeyPrefix (store w)) key u
    (RedisFeatureFlagCache.redis (store w)) = (Ok b, db2) →
  canActivate handler w
  = (Ok (if scope_is_not_SERVICE (FEATURE_FLAG_OPTIONS_KEY handler)
         then b else true),
     resolved w key u b (store w)).
Proof.
  intros Hu Hadmin Hkey Hget Hhas.
  rewrite (canActivate_resolves handler w u key r b (store w) (store w)
             Hu Hadmin Hkey).
  - by rewrite (StoreLaws.granted_only_if_enabled _ _ _ _ _ _ _ _ Hget Hhas).
  - by rewrite redis_getFeature, Hget.
  - by rewrite redis_hasFeatureFlag, Hhas.
Qed.

Lemma guard_on_redis_follows_hasFeatureFlag_witness :
  fst (canActivate admin_only_feature
         (arriving (Some "real_admin") (JsBoolean false) ∅ store_admin_only))
  = Ok true.
Proof.
  erewrite (guard_on_redis_follows_hasFeatureFlag admin_only_feature
              (arriving (Some "real_admin") (JsBoolean false) ∅
                 store_admin_only)
              "real_admin" "admin_only_feature" _ true);
    [reflexivity | reflexivity | discriminate | reflexivity
     | vm_compute; reflexivity | vm_compute; reflexivity].
Defined.

(** ** The decision as one formula *)

(** X21. With a store that answers, the guard allows exactly: an admin; or
    a request with a [__user_id], for a handler with a flag, when the scope
    is SERVICE or the record is enabled and the store grants the flag. *)
Theorem canActivate_decision {St : Type} `{FeatureGuardStore St}
    (handler : HandlerMetadata) (w : World St)
    (feature : option Feature) (hasFlag : bool) :
  (∀ key u,
     flag_to_string (FEATURE_FLAG_KEY handler) = Some key →
     __user_id (request w) = Some u →
     ∃ st1 st2, getFeature key (store w) = (Ok feature, st1)
                ∧ hasFeatureFlag key u st1 = (Ok hasFlag, st2)) →
  fst (canActivate handler w)
  = Ok (strictly_true (__is_admin (request w))
        || match __user_id (request w),
                 flag_to_string (FEATURE_FLAG_KEY handler) with
           | Some _, Some _ =>
               negb (scope_is_not_SERVICE (FEATURE_FLAG_OPTIONS_KEY handler))
               || (enabled_is_true feature && hasFlag)
           | _, _ => false
           end).
Proof.
  intros Hstore.
  destruct (decide (__is_admin (request w) = JsBoolean true)) as [Ha | Ha].
  { rewrite (canActivate_admin _ _ Ha). by rewrite Ha. }
  rewrite (not_strictly_true _ Ha). cbn [orb].
  destruct (__user_id (request w)) as [u |] eqn:Hu.
  2:{ by rewrite (canActivate_anonymous _ _ Hu Ha). }
  destruct (flag_to_string (FEATURE_FLAG_KEY handler)) as [key |] eqn:Hkey.
  2:{ by rewrite (canActivate_no_flag _ _ Hkey Ha). }
  destruct (Hstore key u eq_refl eq_refl) as (st1 & st2 & Hget & Hhas).
  rewrite (canActivate_resolves _ _ _ _ _ _ _ _ Hu Ha Hkey Hget Hhas).
  by destruct (scope_is_not_SERVICE _).
Qed.

Lemma canActivate_decision_witness :
  fst (canActivate test_feature
         (arriving (Some "test-user") (JsString "true") ∅
            (answering true false)))
  = Ok false.
Proof.
  refine (canActivate_decision test_feature
            (arriving (Some "test-user") (JsString "true") ∅
               (answering true false))
            (Some {| feature_enabled := true; feature_userIds := None |})
            false _).
  intros key u _ _. by exists (answering true false), (answering true false).
Defined.

(** ** The decorator *)

(** X22. The decorator defines the flag and the options of the handler,
    replacing what an earlier [FeatureFlag] had defined, and registers the
    guard once more. So of two stacked decorators the guard, registered
    twice, finds the flag and the options of the outer one: it runs as for
    the outer decorator alone, and the flag of the inner decorator is never
    resolved. *)
Theorem stacked_decorators_keep_the_outer_flag
    {St : Type} `{FeatureGuardStore St}
    (outer inner : string) (outer_options inner_options : option FeatureFlagOptions)
    (h : Decorator.Handler) (w : World St) :
  let stacked :=
    Decorator.FeatureFlag outer outer_options
      (Decorator.FeatureFlag inner inner_options h) in
  Decorator.metadata stacked
  = {| FEATURE_FLAG_KEY := FlagName outer;
       FEATURE_FLAG_OPTIONS_KEY := outer_options |}
  ∧ Decorator.guards stacked
    = (Decorator.guards h
         ++ [Decorator.FeatureGuard_class; Decorator.FeatureGuard_class])%list
  ∧ canActivate (Decorator.metadata stacked) w
    = canActivate
        (Decorator.metadata (Decorator.FeatureFlag outer outer_options h)) w.
Proof.
  intros stacked. subst stacked. split_and!.
  - reflexivity.
  - unfold Decorator.FeatureFlag, Decorator.applyDecorators. simpl.
    by rewrite <- (assoc_L (++)).
  - reflexivity.
Qed.

End GuardLaws.

(** * Cases of the test suites, replayed on the embedding *)

Module Scenarios.
Import FeatureGuard Vocabulary.

(** "should deny access when feature is disabled" *)
Example deny_when_disabled :
  fst (canActivate test_feature
         (arriving (Some "test-user") (JsBoolean false) ∅
            (answering false true)))
  = Ok false.
Proof. reflexivity. Qed.

(** "should deny access when user does not have flag" *)
Example deny_when_user_lacks_flag :
  fst (canActivate test_feature
         (arriving (Some "test-user") (JsBoolean false) ∅
            (answering true false)))
  = Ok false.
Proof. reflexivity. Qed.

(** "should allow access when feature is enabled and user has flag" *)
Example allow_when_enabled_and_granted :
  fst (canActivate test_feature
         (arriving (Some "test-user") (JsBoolean false) ∅
            (answering true true)))
  = Ok true.
Proof. reflexivity. Qed.

(** "should handle when feature is null" *)
Example deny_when_feature_is_null :
  fst (canActivate test_feature
         (arriving (Some "test-user") (JsBoolean false) ∅
            {| getFeature_answer := Ok None;
               hasFeatureFlag_answer := Ok false |}))
  = Ok false.
Proof. reflexivity. Qed.

(** "should deny access when no feature flag is set" *)
Example deny_when_no_flag :
  canActivate
    {| FEATURE_FLAG_KEY := FlagUndefined; FEATURE_FLAG_OPTIONS_KEY := None |}
    (arriving (Some "test-user") (JsBoolean false) ∅ (answering true true))
  = (Ok false,
     arriving (Some "test-user") (JsBoolean false) ∅ (answering true true)).
Proof. reflexivity. Qed.

(** "should handle SERVICE scope with errors gracefully": the rejection of
    the store is the rejection of the guard, and the request is untouched. *)
Example store_rejection_propagates :
  fst (canActivate test_feature_SERVICE
         (arriving (Some "test-user") (JsBoolean false) ∅ unreachable))
  = Err (StoreFailure "ECONNREFUSED")
  ∧ request
      (snd (canActivate test_feature_SERVICE
              (arriving (Some "test-user") (JsBoolean false) ∅ unreachable)))
    = request (arriving (Some "test-user") (JsBoolean false) ∅ unreachable).
Proof. split; reflexivity. Qed.

(** "should handle corrupted Redis data gracefully" *)
Example corrupted_marker_is_disabled :
  fst (hasFeatureFlag "corrupted_test" "test_user" store_corrupted) = Ok false.
Proof. vm_compute. reflexivity. Qed.

(** "should return null when feature info exists but enabled field is
    missing" *)
Example info_without_marker_is_null :
  fst (getFeature "partial_test" store_corrupted) = Ok None.
Proof. vm_compute. reflexivity. Qed.

(** "should handle admin privilege escalation attempts": a string in
    [__is_admin] does not open a flag granted to another user. *)
Example escalation_attempt_denied :
  fst (canActivate admin_only_feature
         (arriving (Some "fake_admin") (JsString "true") ∅ store_admin_only))
  = Ok false
  ∧ fst (canActivate admin_only_feature
           (arriving (Some "real_admin") (JsBoolean false) ∅ store_admin_only))
    = Ok true.
Proof. split; vm_compute; reflexivity. Qed.

End Scenarios.
